(** * Review analytics: a shallow embedding of [src/review_analytics.py]

    The development follows the class [ReviewAnalyzer]: the four-way
    segmentation of the raw text ([_split_reviews]), the sentiment call
    and its normalisation chain ([_analyze_single_review_sentiment]), the
    line parser of the insight call ([_get_overall_insights]), the rule
    insights ([_generate_summary_insights]) and the orchestration
    ([analyze_reviews]).

    Python values are modelled as the interpreter has them:
    - a [str] is a list of Unicode code points ([N]);
    - an [int] is a [Z], a [float] is an IEEE 754 binary64 value
      ([spec_float] at precision 53);
    - a [dict] literal is an association list in insertion order, the
      [Counter] is a finite map;
    - the language model is an oracle that sees the prompts issued so far;
      calls, printing and exceptions are threaded through a small monad. *)

From Stdlib Require Import ZArith NArith Lia Floats.SpecFloat.
From stdpp Require Import base option list strings gmap.

Set Default Proof Using "Type".

(** ** Unicode tables (Unicode 14.0, the database of CPython 3.11) *)

Module Unicode.

(** [str.isspace], [str.strip], [str.split()] and the regex class [\s]
    all use the same table. *)
Definition whitespace : list N :=
  [ 0x09; 0x0A; 0x0B; 0x0C; 0x0D; 0x1C; 0x1D; 0x1E; 0x1F; 0x20; 0x85; 0xA0;
    0x1680; 0x2000; 0x2001; 0x2002; 0x2003; 0x2004; 0x2005; 0x2006; 0x2007;
    0x2008; 0x2009; 0x200A; 0x2028; 0x2029; 0x202F; 0x205F; 0x3000 ]%N.

Definition isspace (c : N) : bool := existsb (N.eqb c) whitespace.

(** The regex class [\d] on a [str] pattern is the general category Nd:
    blocks of ten consecutive code points, listed by their digit zero. *)
Definition decimal_zeros : list N :=
  [ 0x30; 0x660; 0x6F0; 0x7C0; 0x966; 0x9E6; 0xA66; 0xAE6; 0xB66; 0xBE6;
    0xC66; 0xCE6; 0xD66; 0xDE6; 0xE50; 0xED0; 0xF20; 0x1040; 0x1090;
    0x17E0; 0x1810; 0x1946; 0x19D0; 0x1A80; 0x1A90; 0x1B50; 0x1BB0;
    0x1C40; 0x1C50; 0xA620; 0xA8D0; 0xA900; 0xA9D0; 0xA9F0; 0xAA50;
    0xABF0; 0xFF10; 0x104A0; 0x10D30; 0x11066; 0x110F0; 0x11136; 0x111D0;
    0x112F0; 0x11450; 0x114D0; 0x11650; 0x116C0; 0x11730; 0x118E0;
    0x11950; 0x11C50; 0x11D50; 0x11DA0; 0x16A60; 0x16AC0; 0x16B50;
    0x1D7CE; 0x1D7D8; 0x1D7E2; 0x1D7EC; 0x1D7F6;
    0x1E140; 0x1E2F0; 0x1E950; 0x1FBF0 ]%N.

Definition isdigit (c : N) : bool :=
  existsb (fun z => (z <=? c)%N && (c <? z + 10)%N) decimal_zeros.

(** [str.lower] on one code point.  The table is exact on Basic Latin
    and Latin-1 and on every code point whose lower-case form contains a
    code point below U+0100 (U+0130, U+0178, U+1E9E, U+212A, U+212B).
    The remaining cased letters are mapped by Python to letters that
    again lie above U+00FF; they are left in place here, which the
    comparisons of the source, all against Basic Latin words, cannot
    tell apart. *)
Definition lower_char (c : N) : list N :=
  if ((0x41 <=? c) && (c <=? 0x5A))%N then [c + 32]%N
  else if ((0xC0 <=? c) && (c <=? 0xDE) && negb (c =? 0xD7))%N then [c + 32]%N
  else if (c =? 0x130)%N then [0x69; 0x307]%N
  else if (c =? 0x178)%N then [0xFF]%N
  else if (c =? 0x1E9E)%N then [0xDF]%N
  else if (c =? 0x212A)%N then [0x6B]%N
  else if (c =? 0x212B)%N then [0xE5]%N
  else [c].

(** Matching a Basic Latin letter under [re.IGNORECASE]: the two cases of
    the letter and, for i, k and s, the code points U+0130, U+0131,
    U+212A and U+017F. *)
Definition fold_case (c : N) : N :=
  if ((0x41 <=? c) && (c <=? 0x5A))%N then (c + 32)%N
  else if ((c =? 0x130) || (c =? 0x131))%N then 0x69%N
  else if (c =? 0x212A)%N then 0x6B%N
  else if (c =? 0x17F)%N then 0x73%N
  else c.

Definition eq_ignorecase (l c : N) : bool := (fold_case c =? fold_case l)%N.

End Unicode.

(** ** Python strings *)

Module Str.
Import Unicode.

Definition str := list N.

(** A Basic Latin literal. *)
Definition py (s : string) : str :=
  Ascii.N_of_ascii <$> String.list_ascii_of_string s.

Definition LF : N := 0x0A%N.
Definition QUOTE : N := 0x22%N.
Definition BULLET : N := 0x2022%N.

Fixpoint drop_while (p : N -> bool) (s : str) : str :=
  match s with
  | [] => []
  | c :: s' => if p c then drop_while p s' else s
  end.

(** [s.lstrip()], [s.rstrip()], [s.strip()] *)
Definition lstrip (s : str) : str := drop_while isspace s.
Definition rstrip (s : str) : str := reverse (drop_while isspace (reverse s)).
Definition strip (s : str) : str := rstrip (lstrip s).

(** [s.lstrip(chars)] *)
Definition lstrip_chars (chars : str) (s : str) : str :=
  drop_while (fun c => existsb (N.eqb c) chars) s.

Definition eqb (a b : str) : bool := bool_decide (a = b).

(** [s.startswith(p)] *)
Fixpoint startswith (p s : str) : bool :=
  match p, s with
  | [], _ => true
  | a :: p', b :: s' => (a =? b)%N && startswith p' s'
  | _ :: _, [] => false
  end.

(** [sub in s] *)
Fixpoint contains (sub s : str) : bool :=
  startswith sub s ||
  match s with
  | [] => false
  | _ :: s' => contains sub s'
  end.

(** [s.lower()] *)
Definition lower (s : str) : str := s ≫= lower_char.

(** A finder locates the first separator in a text and returns the text
    before it and the text after it. *)
Definition finder := str -> option (str * str).

(** The first occurrence of the literal [sep]. *)
Fixpoint find (sep : str) (s : str) : option (str * str) :=
  if startswith sep s then Some ([], drop (length sep) s)
  else match s with
       | [] => None
       | c :: s' => prod_map (cons c) id <$> find sep s'
       end.

(** Cutting a text at successive separators.  Every separator of the
    source is non-empty, so [S (length s)] rounds always suffice
    (see [split_by_fuel]). *)
Fixpoint split_by (f : finder) (fuel : nat) (s : str) : list str :=
  match fuel with
  | O => [s]
  | S n =>
    match f s with
    | None => [s]
    | Some (pre, rest) => pre :: split_by f n rest
    end
  end.

(** [s.split(sep)] for a non-empty [sep] *)
Definition split (sep : str) (s : str) : list str :=
  split_by (find sep) (S (length s)) s.

(** A finder cuts a text around a separator. *)
Definition cuts (f : finder) (sep_ok : str -> Prop) : Prop :=
  forall s pre rest, f s = Some (pre, rest) ->
    exists m, s = pre ++ m ++ rest /\ sep_ok m.

(** [s.split()]: the maximal runs of non-whitespace *)
Fixpoint split_ws_aux (cur : str) (s : str) : list str :=
  match s with
  | [] => match cur with [] => [] | _ => [reverse cur] end
  | c :: s' =>
    if isspace c
    then match cur with
         | [] => split_ws_aux [] s'
         | _ => reverse cur :: split_ws_aux [] s'
         end
    else split_ws_aux (c :: cur) s'
  end.

Definition split_ws (s : str) : list str := split_ws_aux [] s.

(** A text of whitespace only. *)
Definition blank (s : str) : bool := forallb isspace s.

Definition nonempty (s : str) : bool := match s with [] => false | _ => true end.

End Str.

(** ** The fragment of [re] used by the source *)

Module Re.
Import Unicode Str.

(** A pattern is a sequence of one-character items, each with a greedy
    quantifier: enough for [\d+\.\s*] and [Review\s*:?\s*]. *)
Inductive quant := One | Opt | Star | Plus.

Record atom := Atom { accepts : N -> bool; quantifier : quant }.

Definition pattern := list atom.

(** Greedy repetition with backtracking: take as many characters as
    possible, give them back one at a time until the rest [k] of the
    pattern matches. *)
Fixpoint star (p : N -> bool) (k : str -> option str) (s : str) : option str :=
  match s with
  | c :: s' =>
    if p c
    then match star p k s' with
         | Some r => Some r
         | None => k s
         end
    else k s
  | [] => k s
  end.

(** [match_here pat s]: the text left after the match of [pat] at the
    start of [s] that the backtracking matcher finds first. *)
Fixpoint match_here (pat : pattern) : str -> option str :=
  match pat with
  | [] => fun s => Some s
  | a :: pat' =>
    let k := match_here pat' in
    let p := accepts a in
    match quantifier a with
    | One => fun s =>
        match s with
        | c :: s' => if p c then k s' else None
        | [] => None
        end
    | Opt => fun s =>
        match s with
        | c :: s' =>
          if p c
          then match k s' with
               | Some r => Some r
               | None => k s
               end
          else k s
        | [] => k s
        end
    | Star => star p k
    | Plus => fun s =>
        match s with
        | c :: s' => if p c then star p k s' else None
        | [] => None
        end
    end
  end.

(** [pat.search(s)]: the leftmost position where the pattern matches. *)
Fixpoint search (pat : pattern) (s : str) : option (str * str) :=
  match match_here pat s with
  | Some rest => Some ([], rest)
  | None =>
    match s with
    | [] => None
    | c :: s' => prod_map (cons c) id <$> search pat s'
    end
  end.

(** [re.split(pat, s)] for a pattern without groups that cannot match
    the empty string. *)
Definition split (pat : pattern) (s : str) : list str :=
  split_by (search pat) (S (length s)) s.

(** Items that must consume a character. *)
Definition mandatory (q : quant) : bool :=
  match q with One | Plus => true | _ => false end.

(** The pattern matches somewhere in the text. *)
Definition occurs (pat : pattern) (text : str) : Prop :=
  exists pre s r, text = pre ++ s /\ match_here pat s = Some r.

Definition chr (c : N) : N -> bool := N.eqb c.
Definition chr_i (c : N) : N -> bool := eq_ignorecase c.

(** [r'\d+\.\s*'] *)
Definition numbered_pattern : pattern :=
  [ Atom isdigit Plus; Atom (chr 0x2E) One; Atom isspace Star ].

(** [r'Review\s*:?\s*'] compiled with [re.IGNORECASE] *)
Definition review_pattern : pattern :=
  [ Atom (chr_i 0x52) One; Atom (chr_i 0x65) One; Atom (chr_i 0x76) One;
    Atom (chr_i 0x69) One; Atom (chr_i 0x65) One; Atom (chr_i 0x77) One;
    Atom isspace Star; Atom (chr 0x3A) Opt; Atom isspace Star ].

End Re.

Import Unicode Str.

(** ** [ReviewAnalyzer._split_reviews] *)

(** [[r.strip() for r in reviews if r.strip()]] *)
Definition stripped_nonempty (reviews : list str) : list str :=
  r ← reviews; match strip r with [] => [] | r' => [r'] end.

Definition _split_reviews (text : str) : list str :=
  (* Method 1: split by double line breaks *)
  let reviews := Str.split [LF; LF] text in
  if 1 <? length reviews then stripped_nonempty reviews else
  (* Method 2: split by numbered reviews *)
  let reviews := Re.split Re.numbered_pattern text in
  if 1 <? length reviews then stripped_nonempty reviews else
  (* Method 3: split by the Review marker *)
  let reviews := Re.split Re.review_pattern text in
  if 1 <? length reviews then stripped_nonempty reviews else
  (* Method 4: no clear separation, a single review *)
  match strip text with [] => [] | t => [t] end.

Definition nonempty_list {A} (l : list A) : bool :=
  match l with [] => false | _ => true end.

(** ** Python floats *)

Module Float.

Definition prec : Z := 53.
Definition emax : Z := 1024.

Definition float := spec_float.

(** An int as an unrounded binary number. *)
Definition raw (n : Z) : float :=
  match n with
  | Z0 => S754_zero false
  | Zpos p => S754_finite false p 0
  | Zneg p => S754_finite true p 0
  end.

(** [float(n)], rounded to nearest even (exact below [2^53]) *)
Definition of_int (n : Z) : float := binary_normalize prec emax n 0 false.

(** [a / b] on ints with [b <> 0]: the correctly rounded quotient, an
    infinity when it is too large for a float *)
Definition int_truediv (a b : Z) : float := SFdiv prec emax (raw a) (raw b).

(** [math.isinf(x)] *)
Definition is_inf (x : float) : bool :=
  match x with S754_infinity _ => true | _ => false end.

(** [x * n] for a float [x] and an int [n] *)
Definition mul_int (x : float) (n : Z) : float := SFmul prec emax x (of_int n).

(** [x > n] for a float [x] and an int [n] that a float holds exactly *)
Definition gt_int (x : float) (n : Z) : bool := SFltb (of_int n) x.

Definition round_half_even (num den : Z) : Z :=
  let q := (num / den)%Z in
  match (2 * (num mod den) ?= den)%Z with
  | Lt => q
  | Gt => (q + 1)%Z
  | Eq => if Z.even q then q else (q + 1)%Z
  end.

(** [round(x, 1)]: the exact value of [x] is rounded half-even to one
    decimal, and the float nearest to that decimal is returned. *)
Definition round1 (x : float) : float :=
  match x with
  | S754_finite s m e =>
    let tenths :=
      if (0 <=? e)%Z then (Zpos m * 10 * 2 ^ e)%Z
      else round_half_even (Zpos m * 10) (2 ^ (- e)) in
    if (tenths =? 0)%Z then S754_zero s
    else int_truediv (if s then - tenths else tenths)%Z 10
  | _ => x
  end.

End Float.

Arguments Float.of_int : simpl never.
Arguments Float.int_truediv : simpl never.
Arguments Float.mul_int : simpl never.
Arguments Float.gt_int : simpl never.
Arguments Float.round1 : simpl never.

Import Float.

(** ** Python values, exceptions and the outside world *)

#[warnings="-register-all"]
Inductive value :=
| VInt (n : Z)
| VFloat (x : float)
| VStr (s : str)
| VList (l : list str)
| VDict (d : list (str * value)).

(** A [dict] in insertion order. *)
Definition dict (V : Type) := list (str * V).

Definition keys {V} (d : dict V) : list str := d.*1.
Definition values {V} (d : dict V) : list V := d.*2.

Fixpoint lookup_key {V} (k : str) (d : dict V) : option V :=
  match d with
  | [] => None
  | (k', v) :: d' => if Str.eqb k k' then Some v else lookup_key k d'
  end.

Inductive exn :=
| ModelError (msg : str)   (* anything the language model call raises *)
| ZeroDivisionError
| OverflowError
| KeyError (key : str).

(** [str(e)]; the [repr] of a missing key is written for keys without
    quotes or escapes, which is what the literal keys of the source are. *)
Definition exn_str (e : exn) : str :=
  match e with
  | ModelError msg => msg
  | ZeroDivisionError => py "division by zero"
  | OverflowError => py "integer division result too large for a float"
  | KeyError k => py "'" ++ k ++ py "'"
  end.

Inductive outcome (A : Type) :=
| Ok (a : A)
| Raise (e : exn).
Arguments Ok {A} a.
Arguments Raise {A} e.

(** What a call of the language model comes to: the text of the response,
    or the message of the exception raised by [generate_content] or by
    reading [response.text]. *)
Inductive reply :=
| Response (text : str)
| Failure (msg : str).

(** The world records the prompts sent to the model and the lines printed. *)
Record world := World { prompts : list str; stdout : list str }.

Definition M (A : Type) : Type := world -> outcome A * world.

#[global] Instance M_ret : MRet M := fun A a w => (Ok a, w).

#[global] Instance M_bind : MBind M := fun A B f m w =>
  match m w with
  | (Ok a, w') => f a w'
  | (Raise e, w') => (Raise e, w')
  end.

Definition raise {A} (e : exn) : M A := fun w => (Raise e, w).

(** [try: body  except Exception as e: handler(e)] *)
Definition try_except {A} (body : M A) (handler : exn -> M A) : M A := fun w =>
  match body w with
  | (Ok a, w') => (Ok a, w')
  | (Raise e, w') => handler e w'
  end.

(** [print(line)] *)
Definition print (line : str) : M unit := fun w =>
  (Ok tt, World (prompts w) (stdout w ++ [line])).

(** [for x in l: s = body(s, x)] *)
Fixpoint for_each {A S} (l : list A) (body : S -> A -> M S) (s : S) : M S :=
  match l with
  | [] => mret s
  | x :: l' => s' ← body s x; for_each l' body s'
  end.

(** [d[k]] *)
Definition getitem {V} (d : dict V) (k : str) : M V :=
  match lookup_key k d with
  | Some v => mret v
  | None => raise (KeyError k)
  end.

(** [a / b] on ints: a zero divisor and a quotient too large for a float
    raise *)
Definition truediv (a b : Z) : M float :=
  if (b =? 0)%Z then raise ZeroDivisionError
  else let q := int_truediv a b in
       if is_inf q then raise OverflowError else mret q.

(** [Counter(l)] and [c.get(k, 0)] *)
Definition Counter (l : list str) : gmap str Z :=
  foldl (fun c x => <[x := (default 0 (c !! x) + 1)%Z]> c) ∅ l.

Definition get (c : gmap str Z) (k : str) (d : Z) : Z := default d (c !! k).

(** ** The class [ReviewAnalyzer] *)

Section ReviewAnalyzer.

(** [self.model]: the reply to a prompt may depend on the prompts sent
    before it. *)
Variable model : list str -> str -> reply.

(** [self.model.generate_content(prompt).text] *)
Definition generate_content_text (prompt : str) : M str := fun w =>
  let w' := World (prompts w ++ [prompt]) (stdout w) in
  match model (prompts w) prompt with
  | Response text => (Ok text, w')
  | Failure msg => (Raise (ModelError msg), w')
  end.

Definition indent : str := py "        ".

Definition sentiment_prompt (review : str) : str :=
  [LF] ++
  indent ++ py "Analyze the sentiment of this review and respond with ONLY one word: positive, negative, or neutral." ++ [LF] ++
  indent ++ [LF] ++
  indent ++ py "Review: " ++ [QUOTE] ++ review ++ [QUOTE] ++ [LF] ++
  indent ++ [LF] ++
  indent ++ py "Response (one word only):" ++ [LF] ++
  indent.

Definition _analyze_single_review_sentiment (review : str) : M str :=
  let prompt := sentiment_prompt review in
  try_except
    (response_text ← generate_content_text prompt;
     let sentiment := lower (strip response_text) in
     (* Ensure we get a valid response *)
     if bool_decide (sentiment ∈ [py "positive"; py "negative"; py "neutral"])
     then mret sentiment
     else if contains (py "positive") sentiment then mret (py "positive")
     else if contains (py "negative") sentiment then mret (py "negative")
     else mret (py "neutral"))
    (fun e =>
       _ ← print (py "Error analyzing sentiment: " ++ exn_str e);
       mret (py "neutral")).

Definition insights_prompt (reviews_text : str) : str :=
  [LF] ++
  indent ++ py "Analyze these travel reviews and provide 5-7 key insights about the destination/experience." ++ [LF] ++
  indent ++ py "Focus on:" ++ [LF] ++
  indent ++ py "- Common positive aspects mentioned" ++ [LF] ++
  indent ++ py "- Common complaints or issues" ++ [LF] ++
  indent ++ py "- Recommendations that appear frequently" ++ [LF] ++
  indent ++ py "- Notable patterns in visitor experiences" ++ [LF] ++
  indent ++ [LF] ++
  indent ++ py "Reviews:" ++ [LF] ++
  indent ++ reviews_text ++ [LF] ++
  indent ++ [LF] ++
  indent ++ py "Provide insights as a list of clear, actionable points." ++ [LF] ++
  indent.

(** The body of the loop over the lines of the response. *)
Definition parse_line (insights : list str) (line : str) : list str :=
  let line := strip line in
  if nonempty line &&
     (startswith [BULLET] line || startswith (py "-") line || startswith (py "*") line)
  then
    let insight := strip (lstrip_chars (BULLET :: py "-* ") line) in
    if nonempty insight then insights ++ [insight] else insights
  else if nonempty line && (3 <? length (split_ws line))
  then insights ++ [line]   (* substantial line *)
  else insights.

Definition _get_overall_insights (reviews_text : str) : M (list str) :=
  let prompt := insights_prompt reviews_text in
  try_except
    (insights_text ← generate_content_text prompt;
     (* Parse insights into list *)
     let lines := Str.split [LF] insights_text in
     let insights := foldl parse_line [] lines in
     mret (take 7 insights))   (* limit to 7 insights *)
    (fun e =>
       _ ← print (py "Error getting insights: " ++ exn_str e);
       mret [py "Unable to generate insights from reviews"]).

Definition overwhelmingly_positive : str :=
  py "Overwhelmingly positive reviews - visitors love this destination!".
Definition generally_positive : str :=
  py "Generally positive sentiment with most visitors having good experiences".
Definition concerning_negative : str :=
  py "Concerning number of negative reviews - consider investigating common issues".
Definition mixed_reviews : str :=
  py "Mixed reviews with varied visitor experiences".
Definition strong_positive : str :=
  py "Strong positive sentiment indicates high visitor satisfaction".

Definition _generate_summary_insights
    (sentiment_dist : dict Z) (total_reviews : Z) : M (list str) :=
  if (total_reviews =? 0)%Z then mret [] else
  let insights := [] in
  p ← getitem sentiment_dist (py "Positive");
  x ← truediv p total_reviews;
  let positive_pct := mul_int x 100 in
  n ← getitem sentiment_dist (py "Negative");
  y ← truediv n total_reviews;
  let negative_pct := mul_int y 100 in
  let insights :=
    if gt_int positive_pct 70 then insights ++ [overwhelmingly_positive]
    else if gt_int positive_pct 50 then insights ++ [generally_positive]
    else if gt_int negative_pct 50 then insights ++ [concerning_negative]
    else insights ++ [mixed_reviews] in
  p ← getitem sentiment_dist (py "Positive");
  n ← getitem sentiment_dist (py "Negative");
  let insights :=
    if (n * 2 <? p)%Z then insights ++ [strong_positive] else insights in
  mret insights.

(** The body of the loop over the reviews. *)
Definition analyze_one (sentiments : list str) (review : str) : M (list str) :=
  if 10 <? length (strip review)   (* only analyze substantial reviews *)
  then sentiment ← _analyze_single_review_sentiment review;
       mret (sentiments ++ [sentiment])
  else mret sentiments.

(** One entry of the [sentiment_percentages] comprehension. *)
Definition percentage (total_reviews : Z) (kv : str * Z) : M (str * value) :=
  let '(k, v) := kv in
  if (0 <? total_reviews)%Z
  then x ← truediv v total_reviews;
       mret (k, VFloat (round1 (mul_int x 100)))
  else mret (k, VInt 0).

(** The [sentiment_distribution] literal. *)
Definition distribution (sentiment_counts : gmap str Z) : dict Z :=
  [ (py "Positive", get sentiment_counts (py "positive") 0);
    (py "Neutral", get sentiment_counts (py "neutral") 0);
    (py "Negative", get sentiment_counts (py "negative") 0) ].

Definition analyze_reviews (reviews_text : str) : M (dict value) :=
  (* Split reviews *)
  let reviews := _split_reviews reviews_text in
  if negb (nonempty_list reviews)
  then mret [(py "error", VStr (py "No valid reviews found"))] else
  (* Analyze sentiment for each review *)
  sentiments ← for_each reviews analyze_one [];
  (* Get overall insights *)
  overall_insights ← _get_overall_insights reviews_text;
  (* Calculate sentiment distribution *)
  let sentiment_counts := Counter sentiments in
  let total_reviews := Z.of_nat (length sentiments) in
  let sentiment_distribution := distribution sentiment_counts in
  (* Generate summary insights *)
  summary_insights ← _generate_summary_insights sentiment_distribution total_reviews;
  sentiment_percentages ←
    for_each sentiment_distribution
      (fun acc kv => e ← percentage total_reviews kv; mret (acc ++ [e])) [];
  mret [ (py "total_reviews", VInt total_reviews);
         (py "sentiment_distribution", VDict (prod_map id VInt <$> sentiment_distribution));
         (py "insights", VList (overall_insights ++ summary_insights));
         (py "sentiment_percentages", VDict sentiment_percentages) ].

End ReviewAnalyzer.

(** A character that a marker can hold: one that an item of the numbered
    or of the Review pattern accepts (whitespace, a decimal digit, a
    period, a colon, a letter of the marker's word in any letter case). *)
Definition marker_char (c : N) : bool :=
  existsb (fun a => Re.accepts a c) (Re.numbered_pattern ++ Re.review_pattern).

(** ** The segmenter as the specification words it

    Strategy 1 is taken when the blank-line split has at least two
    non-empty trimmed pieces; strategies 2 and 3 when their split has at
    least two pieces; otherwise the trimmed whole. *)

Definition segment_spec (text : str) : list str :=
  let pieces := stripped_nonempty (Str.split [LF; LF] text) in
  if 2 <=? length pieces then pieces else
  let pieces := Re.split Re.numbered_pattern text in
  if 2 <=? length pieces then stripped_nonempty pieces else
  let pieces := Re.split Re.review_pattern text in
  if 2 <=? length pieces then stripped_nonempty pieces else
  match strip text with [] => [] | t => [t] end.

(** ** The classifier as the specification words it

    The normalised response is one of the three labels, or contains
    "positive", or contains "negative", or else is taken as neutral; a
    failed call is neutral. *)

Definition labels : list str := [py "positive"; py "negative"; py "neutral"].

Definition classify_spec (answer : reply) : str :=
  match answer with
  | Response response =>
    let normalized := lower (strip response) in
    if Str.eqb normalized (py "positive") then py "positive"
    else if Str.eqb normalized (py "negative") then py "negative"
    else if Str.eqb normalized (py "neutral") then py "neutral"
    else if contains (py "positive") normalized then py "positive"
    else if contains (py "negative") normalized then py "negative"
    else py "neutral"
  | Failure _ => py "neutral"
  end.

(** ** The insight extractor as the specification words it

    A (trimmed) line that starts with a bullet marker is accepted with the
    marker and the whitespace after it removed; a line without a marker is
    accepted when it has more than 3 tokens. *)

Definition is_bullet (c : N) : bool := (c =? BULLET)%N || (c =? 0x2D)%N || (c =? 0x2A)%N.

Definition accept_spec (line : str) : list str :=
  match strip line with
  | [] => []
  | c :: rest =>
    if is_bullet c then [lstrip rest]
    else if 3 <? length (split_ws (c :: rest)) then [c :: rest]
    else []
  end.

Definition extract_spec (answer : reply) : list str :=
  match answer with
  | Response response => take 7 (Str.split [LF] response ≫= accept_spec)
  | Failure _ => [py "Unable to generate insights from reviews"]
  end.

(** The rule as the source applies it: a trimmed line that starts with a
    bullet marker loses every leading bullet marker and space, is trimmed
    again, and counts only if something is left. *)
Definition accept (line : str) : list str :=
  match strip line with
  | [] => []
  | c :: rest =>
    if is_bullet c
    then match strip (drop_while (fun c => is_bullet c || (c =? 0x20)%N) (c :: rest)) with
         | [] => []
         | insight => [insight]
         end
    else if 3 <? length (split_ws (c :: rest)) then [c :: rest]
    else []
  end.

Definition extract (answer : reply) : list str :=
  match answer with
  | Response response => take 7 (Str.split [LF] response ≫= accept)
  | Failure _ => [py "Unable to generate insights from reviews"]
  end.

(** ** The aggregator as the specification words it *)

(** [(count / total) * 100] *)
Definition pct (count total : Z) : float := mul_int (int_truediv count total) 100.

(** The chain of thresholds; exactly one of the four messages. *)
Definition threshold_messages : list str :=
  [overwhelmingly_positive; generally_positive; concerning_negative; mixed_reviews].

Definition threshold_insight (positive negative total : Z) : str :=
  if gt_int (pct positive total) 70 then overwhelmingly_positive
  else if gt_int (pct positive total) 50 then generally_positive
  else if gt_int (pct negative total) 50 then concerning_negative
  else mixed_reviews.

Definition rule_insights (positive negative total : Z) : list str :=
  threshold_insight positive negative total ::
  (if (negative * 2 <? positive)%Z then [strong_positive] else []).

Definition summary_of (c : gmap str Z) (total : Z) : list str :=
  if (total =? 0)%Z then []
  else rule_insights (get c (py "positive") 0) (get c (py "negative") 0) total.

Definition percentage_value (total count : Z) : value :=
  if (0 <? total)%Z then VFloat (round1 (pct count total)) else VInt 0.

(** The dictionary returned for the labels of the eligible segments and
    the insights of the model. *)
Definition result_of (sentiments overall : list str) : dict value :=
  let c := Counter sentiments in
  let total := Z.of_nat (length sentiments) in
  [ (py "total_reviews", VInt total);
    (py "sentiment_distribution", VDict (prod_map id VInt <$> distribution c));
    (py "insights", VList (overall ++ summary_of c total));
    (py "sentiment_percentages",
     VDict (prod_map id (percentage_value total) <$> distribution c)) ].

(** A segment long enough to be classified. *)
Definition eligible (review : str) : bool := 10 <? length (strip review).

(** The lines printed by the two exception handlers. *)
Definition printed (what : str) (answer : reply) : list str :=
  match answer with
  | Response _ => []
  | Failure msg => [what ++ msg]
  end.

(** ** Sample inputs *)

Definition short_review : str := py "Nice.".
Definition long_review : str :=
  py "The rooms were clean, and the staff very friendly.".

Definition w0 : world := World [] [].

(** A model that always answers the same. *)
Definition always (r : reply) : list str -> str -> reply := fun _ _ => r.

(** ** Laid-out texts, and how segments lie in a text *)

(** [sep.join(l)] *)
Fixpoint join (sep : str) (l : list str) : str :=
  match l with
  | [] => []
  | x :: l' =>
    match l' with
    | [] => x
    | _ => x ++ sep ++ join sep l'
    end
  end.

(** A numbered list: every item on a line of its own, after its number, a
    period and a space. *)
Definition numbered_list (items : list (str * str)) : str :=
  item ← items; item.1 ++ py ". " ++ item.2 ++ [LF].

(** The same layout with the Review marker. *)
Definition review_list (items : list str) : str :=
  x ← items; py "Review: " ++ x ++ [LF].

(** The segments lie in the text one after the other, without overlap. *)
Fixpoint in_order (segments : list str) (text : str) : Prop :=
  match segments with
  | [] => True
  | s :: rest => exists l r, text = l ++ s ++ r /\ in_order rest r
  end.

(** A number of an enumeration: one or more decimal digits. *)
Definition is_number (num : str) : Prop :=
  num <> [] /\ forallb isdigit num = true.

(** An item as a list can carry it: trimmed, not empty, without a blank
    line and without a digit directly followed by a period. *)
Definition plain_item (x : str) : Prop :=
  x <> [] /\ strip x = x /\ contains [LF; LF] x = false /\
  ~ Re.occurs Re.numbered_pattern x.

(** An item as a list under the Review marker can carry it: a plain item
    that does not hold the word of the marker, in any letter case. *)
Definition review_item (x : str) : Prop :=
  plain_item x /\ ~ Re.occurs Re.review_pattern x.

(** An answer laid out as the prompt asks: one insight per line, each
    after a bullet marker and a space. *)
Definition bulleted (items : list (N * str)) : str :=
  join [LF] ((fun item => item.1 :: 0x20%N :: item.2) <$> items).

(** An insight as a bulleted line can carry it: trimmed, on one line, and
    starting with a character that is not a bullet marker. *)
Definition plain_insight (i : str) : Prop :=
  strip i = i /\ (LF ∉ i) /\
  match i with c :: _ => is_bullet c = false | [] => False end.

(** A model whose every call raises. *)
Definition unavailable (model : list str -> str -> reply) : Prop :=
  forall history prompt, exists msg, model history prompt = Failure msg.

(** * Facts *)

(** ** Strings *)

Lemma drop_while_nil p s : drop_while p s = [] <-> forallb p s = true.
Proof.
  induction s as [|c s IH]; simpl; [done|].
  destruct (p c); simpl; [done|]. split; discriminate.
Qed.

Lemma drop_while_suffix p s : exists l, s = l ++ drop_while p s /\ forallb p l = true.
Proof.
  induction s as [|c s (l & Hl & Hp)]; simpl.
  - by exists [].
  - destruct (p c) eqn:Hc.
    + exists (c :: l). simpl. rewrite Hc, Hp. split; [by f_equal|done].
    + by exists [].
Qed.

Lemma drop_while_head p s c r : drop_while p s = c :: r -> p c = false.
Proof.
  induction s as [|a s IH]; simpl; [done|].
  destruct (p a) eqn:Ha; [done|]. intros [= -> _]. done.
Qed.

Lemma forallb_reverse p (s : str) : forallb p (reverse s) = forallb p s.
Proof.
  induction s as [|c s IH]; [done|].
  rewrite reverse_cons, forallb_app, IH. simpl. rewrite andb_true_r. apply andb_comm.
Qed.

Lemma blank_app a b : blank (a ++ b) = blank a && blank b.
Proof. apply forallb_app. Qed.

Lemma lstrip_nil s : lstrip s = [] <-> blank s = true.
Proof. apply drop_while_nil. Qed.

Lemma rstrip_nil s : rstrip s = [] <-> blank s = true.
Proof.
  unfold rstrip, blank. rewrite <- (forallb_reverse _ s), <- drop_while_nil.
  split; intros H.
  - apply (f_equal reverse) in H. by rewrite reverse_involutive in H.
  - by rewrite H.
Qed.

(** Trimming leaves nothing exactly when the text is blank. *)
Lemma strip_nil s : strip s = [] <-> blank s = true.
Proof.
  unfold strip. rewrite rstrip_nil. split; intros H.
  - destruct (drop_while_suffix isspace s) as (l & Hl & Hp).
    rewrite Hl, blank_app. unfold blank at 1. rewrite Hp. exact H.
  - apply lstrip_nil in H. unfold lstrip in *. by rewrite H.
Qed.

Lemma rstrip_snoc s c :
  rstrip (s ++ [c]) = if isspace c then rstrip s else s ++ [c].
Proof.
  unfold rstrip. rewrite reverse_app. change (reverse [c]) with [c].
  cbn [app drop_while]. destruct (isspace c); [done|].
  by rewrite reverse_cons, reverse_involutive.
Qed.

(** Trimming on the right keeps a prefix that does not end in whitespace. *)
Lemma rstrip_prefix s : exists t, s = rstrip s ++ t.
Proof.
  induction s as [|c s [t IH]] using rev_ind; [by exists []|].
  rewrite rstrip_snoc. destruct (isspace c).
  - exists (t ++ [c]). by rewrite app_assoc, <- IH.
  - exists []. by rewrite app_nil_r.
Qed.

Lemma rstrip_idemp s : rstrip (rstrip s) = rstrip s.
Proof.
  induction s as [|c s IH] using rev_ind; [done|].
  rewrite rstrip_snoc. destruct (isspace c) eqn:Hc; [done|].
  by rewrite rstrip_snoc, Hc.
Qed.

Lemma lstrip_rstrip_lstrip s : lstrip (rstrip (lstrip s)) = rstrip (lstrip s).
Proof.
  unfold lstrip at 2 3. destruct (drop_while isspace s) as [|c t] eqn:E; [done|].
  apply drop_while_head in E.
  destruct (rstrip_prefix (c :: t)) as [u Hu].
  destruct (rstrip (c :: t)) as [|c' t'] eqn:Er; [done|].
  injection Hu as <- _. unfold lstrip. cbn [drop_while]. by rewrite E.
Qed.

(** Trimming twice is trimming once. *)
Lemma strip_idemp s : strip (strip s) = strip s.
Proof. unfold strip. by rewrite lstrip_rstrip_lstrip, rstrip_idemp. Qed.

Lemma startswith_spec p s : startswith p s = true <-> exists r, s = p ++ r.
Proof.
  revert s. induction p as [|a p IH]; intros s; simpl.
  - split; [by exists s|done].
  - destruct s as [|b s]; [split; [done|by intros [? ?]]|].
    rewrite andb_true_iff, N.eqb_eq, IH. split.
    + intros [-> [r ->]]. by exists r.
    + intros [r [= -> ->]]. split; [done|by exists r].
Qed.

Lemma startswith_drop p s : startswith p s = true -> s = p ++ drop (length p) s.
Proof.
  intros [r ->]%startswith_spec. by rewrite drop_app_length.
Qed.

Lemma contains_spec sub s : contains sub s = true <-> exists l r, s = l ++ sub ++ r.
Proof.
  induction s as [|c s IH]; simpl.
  - rewrite orb_false_r, startswith_spec. split.
    + intros [r Hr]. by exists [], r.
    + intros (l & r & H). destruct l; [by exists r|done].
  - rewrite orb_true_iff, startswith_spec, IH. split.
    + intros [[r Hr]|(l & r & ->)]; [by exists [], r|by exists (c :: l), r].
    + intros (l & r & H). destruct l as [|a l]; [left; by exists r|].
      right. injection H as -> ->. by exists l, r.
Qed.

(** ** Finders and [split_by] *)

Lemma find_Some sep s pre rest :
  find sep s = Some (pre, rest) -> s = pre ++ sep ++ rest.
Proof.
  revert pre. induction s as [|c s IH]; intros pre; simpl.
  - destruct (startswith sep []) eqn:Hs; [|done].
    intros [= <- <-]. by apply startswith_drop in Hs.
  - destruct (startswith sep (c :: s)) eqn:Hs.
    + intros [= <- <-]. by apply startswith_drop in Hs.
    + destruct (find sep s) as [[pre' rest']|]; [|done].
      intros [= <- <-]. simpl. f_equal. by apply IH.
Qed.

Lemma find_is_Some sep s : is_Some (find sep s) <-> contains sep s = true.
Proof.
  induction s as [|c s IH]; simpl.
  - rewrite orb_false_r. destruct (startswith sep []).
    + split; [done|by eexists].
    + split; [by intros [? ?]|done].
  - destruct (startswith sep (c :: s)); simpl.
    + split; [done|by eexists].
    + rewrite <- IH. destruct (find sep s) as [[? ?]|]; simpl.
      * split; by eexists.
      * split; by intros [? ?].
Qed.

(** The split has more than one piece exactly when a separator is found. *)
Lemma split_by_length f n s :
  (1 <? length (split_by f (S n) s)) = bool_decide (is_Some (f s)).
Proof.
  simpl. destruct (f s) as [[pre rest]|] eqn:Hf.
  - rewrite bool_decide_true by done. simpl. by destruct n; simpl; [|destruct (f rest) as [[? ?]|]].
  - rewrite bool_decide_false; [done|]. by intros [? ?].
Qed.

(** With separators that consume at least one character the fuel
    [S (length s)] is never exhausted: any larger fuel gives the same
    pieces. *)
Lemma split_by_fuel f :
  (forall s pre rest, f s = Some (pre, rest) -> length rest < length s) ->
  forall n m s, length s < n -> length s < m -> split_by f n s = split_by f m s.
Proof.
  intros Hf n. induction n as [|n IH]; intros m s Hn Hm; [lia|].
  destruct m as [|m]; [lia|]. simpl.
  destruct (f s) as [[pre rest]|] eqn:E; [|done].
  apply Hf in E. f_equal. apply IH; lia.
Qed.

(** The pieces of a blank text are blank. *)
Lemma split_by_blank f n s :
  cuts f (fun _ => True) -> blank s = true -> Forall (fun p => blank p = true) (split_by f n s).
Proof.
  intros Hf. revert s. induction n as [|n IH]; intros s Hs; simpl.
  - by constructor.
  - destruct (f s) as [[pre rest]|] eqn:E; [|by constructor].
    destruct (Hf _ _ _ E) as (m & -> & _).
    rewrite !blank_app, !andb_true_iff in Hs. destruct Hs as (? & ? & ?).
    constructor; [done|by apply IH].
Qed.

(** When the separators are blank, blank pieces can only come from a
    blank text. *)
Lemma split_by_all_blank f n s :
  cuts f (fun m => blank m = true) ->
  Forall (fun p => blank p = true) (split_by f n s) -> blank s = true.
Proof.
  intros Hf. revert s. induction n as [|n IH]; intros s; simpl.
  - by intros [? _]%Forall_cons_1.
  - destruct (f s) as [[pre rest]|] eqn:E; [|by intros [? _]%Forall_cons_1].
    destruct (Hf _ _ _ E) as (m & -> & Hm).
    intros [Hpre Hrest]%Forall_cons_1. rewrite !blank_app, Hpre, Hm. simpl.
    by apply IH.
Qed.

Lemma stripped_nonempty_nil l :
  stripped_nonempty l = [] <-> Forall (fun p => blank p = true) l.
Proof.
  unfold stripped_nonempty. induction l as [|r l IH]; simpl.
  - split; [constructor|done].
  - rewrite Forall_cons. destruct (strip r) eqn:Hs.
    + apply strip_nil in Hs. simpl. rewrite IH. tauto.
    + split; [done|]. intros [Hb%strip_nil _]. congruence.
Qed.

(** ** The matcher *)

Lemma star_suffix p k s r :
  (forall s r, k s = Some r -> exists m, s = m ++ r) ->
  Re.star p k s = Some r -> exists m, s = m ++ r.
Proof.
  intros Hk. induction s as [|c s IH]; simpl; [by apply Hk|].
  destruct (p c); [|by apply Hk].
  destruct (Re.star p k s) as [r'|] eqn:E; [|by apply Hk].
  intros [= ->]. destruct (IH eq_refl) as [m ->]. by exists (c :: m).
Qed.

(** A match consumes a prefix of the text. *)
Lemma match_here_suffix pat s r :
  Re.match_here pat s = Some r -> exists m, s = m ++ r.
Proof.
  revert s r. induction pat as [|[p q] pat IH]; intros s r; simpl.
  - intros [= ->]. by exists [].
  - destruct q.
    + destruct s as [|c s]; [done|]. destruct (p c); [|done].
      intros [m ->]%IH. by exists (c :: m).
    + destruct s as [|c s]; [by apply IH|]. destruct (p c); [|by apply IH].
      destruct (Re.match_here pat s) as [r'|] eqn:E; [|by apply IH].
      intros [= ->]. apply IH in E as [m ->]. by exists (c :: m).
    + by apply star_suffix.
    + destruct s as [|c s]; [done|]. destruct (p c); [|done].
      intros [m ->]%star_suffix; [|done]. by exists (c :: m).
Qed.

(** A pattern that opens with a mandatory item matches only where the
    first character is accepted, and consumes it. *)
Lemma match_here_head a pat s r :
  Re.mandatory (Re.quantifier a) = true ->
  Re.match_here (a :: pat) s = Some r ->
  exists c m, s = c :: m ++ r /\ Re.accepts a c = true.
Proof.
  destruct a as [p q]. simpl. destruct q; try done; intros _.
  - destruct s as [|c s]; [done|]. destruct (p c) eqn:Hc; [|done].
    intros [m ->]%match_here_suffix. by exists c, m.
  - destruct s as [|c s]; [done|]. destruct (p c) eqn:Hc; [|done].
    intros [m ->]%star_suffix; [by exists c, m|]. apply match_here_suffix.
Qed.

Lemma search_Some pat s pre rest :
  Re.search pat s = Some (pre, rest) ->
  exists m, s = pre ++ m ++ rest /\ Re.match_here pat (m ++ rest) = Some rest.
Proof.
  revert pre. induction s as [|c s IH]; intros pre; simpl.
  - destruct (Re.match_here pat []) as [r|] eqn:E; [|done].
    intros [= <- <-]. destruct (match_here_suffix _ _ _ E) as [m Hm].
    exists m. by rewrite <- Hm.
  - destruct (Re.match_here pat (c :: s)) as [r|] eqn:E.
    + intros [= <- <-]. destruct (match_here_suffix _ _ _ E) as [m Hm].
      exists m. by rewrite <- Hm.
    + destruct (Re.search pat s) as [[pre' rest']|]; [|done].
      intros [= <- <-]. destruct (IH _ eq_refl) as (m & -> & Hm). by exists m.
Qed.

(** The search finds a match whenever the pattern matches somewhere. *)
Lemma search_complete pat pre s r :
  Re.match_here pat s = Some r -> is_Some (Re.search pat (pre ++ s)).
Proof.
  intros Hm. induction pre as [|c pre IH]; simpl.
  - destruct s; simpl; rewrite Hm; by eexists.
  - destruct (Re.match_here pat (c :: pre ++ s)); [by eexists|].
    destruct IH as [[? ?] ->]. by eexists.
Qed.

Lemma search_nil pat :
  Re.search pat [] =
  match Re.match_here pat [] with Some rest => Some ([], rest) | None => None end.
Proof. done. Qed.

Lemma search_cons pat c s :
  Re.search pat (c :: s) =
  match Re.match_here pat (c :: s) with
  | Some rest => Some ([], rest)
  | None => prod_map (cons c) id <$> Re.search pat s
  end.
Proof. done. Qed.

(** No match without a character for the mandatory first item. *)
Lemma search_None a pat s :
  Re.mandatory (Re.quantifier a) = true ->
  Forall (fun c => Re.accepts a c = false) s ->
  Re.search (a :: pat) s = None.
Proof.
  intros Ha. induction s as [|c s IH]; intros Hs.
  - rewrite search_nil. destruct (Re.match_here (a :: pat) []) eqn:E; [|done].
    by destruct (match_here_head _ _ _ _ Ha E) as (? & ? & ? & _).
  - apply Forall_cons_1 in Hs as [Hc Hs]. rewrite search_cons.
    destruct (Re.match_here (a :: pat) (c :: s)) eqn:E.
    + destruct (match_here_head _ _ _ _ Ha E) as (? & ? & [= <- _] & ?). congruence.
    + by rewrite (IH Hs).
Qed.

Lemma search_consumes a pat s pre rest :
  Re.mandatory (Re.quantifier a) = true ->
  Re.search (a :: pat) s = Some (pre, rest) -> length rest < length s.
Proof.
  intros Ha (m & -> & Hm)%search_Some.
  destruct (match_here_head _ _ _ _ Ha Hm) as (c & m' & E & _).
  rewrite E, !length_app. simpl. rewrite length_app. lia.
Qed.

Lemma find_consumes sep s pre rest :
  sep <> [] -> find sep s = Some (pre, rest) -> length rest < length s.
Proof.
  intros Hsep ->%find_Some. rewrite !length_app. destruct sep; [done|]. simpl. lia.
Qed.

(** Whitespace is neither a decimal digit nor a letter of the marker. *)
Lemma isspace_not_digit c : isspace c = true -> isdigit c = false.
Proof.
  intros (x & Hx & ->%N.eqb_eq)%existsb_exists.
  assert (H : forallb (fun c => negb (isdigit c)) whitespace = true) by (vm_compute; reflexivity).
  rewrite forallb_forall in H. by apply negb_true_iff, H.
Qed.

Lemma isspace_not_R c : isspace c = true -> Re.chr_i 0x52 c = false.
Proof.
  intros (x & Hx & ->%N.eqb_eq)%existsb_exists.
  assert (H : forallb (fun c => negb (Re.chr_i 0x52 c)) whitespace = true) by (vm_compute; reflexivity).
  rewrite forallb_forall in H. by apply negb_true_iff, H.
Qed.

Lemma blank_Forall s : blank s = true <-> Forall (fun c => isspace c = true) s.
Proof.
  unfold blank. rewrite forallb_forall, Forall_forall.
  split; intros H x Hx; apply H; by apply list_elem_of_In.
Qed.

Lemma search_numbered_blank s : blank s = true -> Re.search Re.numbered_pattern s = None.
Proof.
  intros Hs%blank_Forall. apply search_None; [done|].
  eapply Forall_impl; [exact Hs|]. apply isspace_not_digit.
Qed.

Lemma search_review_blank s : blank s = true -> Re.search Re.review_pattern s = None.
Proof.
  intros Hs%blank_Forall. apply search_None; [done|].
  eapply Forall_impl; [exact Hs|]. apply isspace_not_R.
Qed.

(** The fuel of the three splits of the source is sufficient. *)
Lemma split_fuel sep s n :
  sep <> [] -> length s < n -> Str.split sep s = split_by (find sep) n s.
Proof.
  intros Hsep Hn. apply split_by_fuel; [|lia|done].
  intros ???. by apply find_consumes.
Qed.

Lemma re_split_fuel a pat s n :
  Re.mandatory (Re.quantifier a) = true ->
  length s < n -> Re.split (a :: pat) s = split_by (Re.search (a :: pat)) n s.
Proof.
  intros Ha Hn. apply split_by_fuel; [|lia|done].
  intros ???. by apply search_consumes.
Qed.

(** ** Segmentation *)

Lemma split_length sep s : (1 <? length (Str.split sep s)) = contains sep s.
Proof.
  unfold Str.split. rewrite split_by_length.
  destruct (contains sep s) eqn:H.
  - by apply bool_decide_eq_true, find_is_Some.
  - apply bool_decide_eq_false. rewrite find_is_Some. congruence.
Qed.

Lemma re_split_length pat s :
  (1 <? length (Re.split pat s)) = bool_decide (is_Some (Re.search pat s)).
Proof. apply split_by_length. Qed.

Lemma stripped_nonempty_trimmed l :
  Forall (fun r => r <> [] /\ strip r = r) (stripped_nonempty l).
Proof.
  unfold stripped_nonempty. induction l as [|r l IH]; [constructor|].
  rewrite bind_cons. destruct (strip r) eqn:E; [done|].
  constructor; [|done]. split; [done|]. rewrite <- E. apply strip_idemp.
Qed.

(** Every segment is non-empty and trimmed. *)
Lemma split_reviews_trimmed text :
  Forall (fun r => r <> [] /\ strip r = r) (_split_reviews text).
Proof.
  unfold _split_reviews.
  repeat match goal with
         | |- context [if ?b then _ else _] => destruct b
         end; try apply stripped_nonempty_trimmed.
  destruct (strip text) eqn:E; [constructor|].
  repeat constructor; [done|]. rewrite <- E. apply strip_idemp.
Qed.

(** C1, as the claim has it: on a text that ends in a blank line the
    blank-line split has one non-empty piece, the numbered split would
    give [alpha], and yet the source returns the blank-line piece. *)
Lemma split_reviews_commits_counterexample :
  let text := py "1. alpha" ++ [LF; LF] in
  length (stripped_nonempty (Str.split [LF; LF] text)) < 2 /\
  segment_spec text = [py "alpha"] /\
  _split_reviews text = [py "1. alpha"] /\
  _split_reviews text <> segment_spec text.
Proof. vm_compute. repeat split; [lia|discriminate]. Qed.

(** The guards of the four methods, read as occurrence tests. *)
Lemma split_reviews_cases text :
  _split_reviews text =
  if contains [LF; LF] text
  then stripped_nonempty (Str.split [LF; LF] text)
  else if bool_decide (is_Some (Re.search Re.numbered_pattern text))
  then stripped_nonempty (Re.split Re.numbered_pattern text)
  else if bool_decide (is_Some (Re.search Re.review_pattern text))
  then stripped_nonempty (Re.split Re.review_pattern text)
  else match strip text with [] => [] | t => [t] end.
Proof. unfold _split_reviews. by rewrite split_length, !re_split_length. Qed.

(** C1, amended: the strategies are tried in the fixed order blank line,
    numbered marker, Review marker, whole text, and the first one whose
    separator occurs in the text is taken, whatever the number of
    non-empty pieces it leaves; its non-empty trimmed pieces are returned,
    so that every segment is non-empty and trimmed.  On "1. alpha"
    followed by a blank line the blank-line strategy is taken. *)
Theorem split_reviews_priority :
  (forall text,
     _split_reviews text =
     if contains [LF; LF] text
     then stripped_nonempty (Str.split [LF; LF] text)
     else if bool_decide (is_Some (Re.search Re.numbered_pattern text))
     then stripped_nonempty (Re.split Re.numbered_pattern text)
     else if bool_decide (is_Some (Re.search Re.review_pattern text))
     then stripped_nonempty (Re.split Re.review_pattern text)
     else match strip text with [] => [] | t => [t] end) /\
  (forall text, Forall (fun r => r <> [] /\ strip r = r) (_split_reviews text)) /\
  _split_reviews (py "1. alpha" ++ [LF; LF]) = [py "1. alpha"].
Proof.
  split; [exact split_reviews_cases|].
  split; [exact split_reviews_trimmed|by vm_compute].
Qed.

Lemma split_reviews_blank text : blank text = true -> _split_reviews text = [].
Proof.
  intros Hb. rewrite split_reviews_cases.
  destruct (contains [LF; LF] text).
  - apply stripped_nonempty_nil, split_by_blank; [|done].
    intros s pre rest ->%find_Some. by eexists.
  - rewrite search_numbered_blank, search_review_blank by done.
    rewrite !bool_decide_false by (by intros [? ?]).
    apply strip_nil in Hb. by rewrite Hb.
Qed.

Lemma split_reviews_blank_line text :
  contains [LF; LF] text = true -> blank text = false -> _split_reviews text <> [].
Proof.
  intros Hc Hb. rewrite split_reviews_cases, Hc.
  intros H%stripped_nonempty_nil%split_by_all_blank; [congruence|].
  intros s pre rest ->%find_Some. by eexists.
Qed.

Lemma split_reviews_unmarked text :
  contains [LF; LF] text = false ->
  Re.search Re.numbered_pattern text = None ->
  Re.search Re.review_pattern text = None ->
  _split_reviews text = match strip text with [] => [] | t => [t] end.
Proof.
  intros Hc Hn Hr. rewrite split_reviews_cases, Hc, Hn, Hr.
  by rewrite !bool_decide_false by (by intros [? ?]).
Qed.

(** Every character that a match consumes is accepted by an item of the
    pattern. *)
Lemma star_accepts (p : N -> bool) (Q : N -> Prop) k s r :
  (forall c, p c = true -> Q c) ->
  (forall s r, k s = Some r -> exists m, s = m ++ r /\ Forall Q m) ->
  Re.star p k s = Some r -> exists m, s = m ++ r /\ Forall Q m.
Proof.
  intros Hp Hk. induction s as [|c s IH]; cbn [Re.star]; [by apply Hk|].
  destruct (p c) eqn:Hc; [|by apply Hk].
  destruct (Re.star p k s) as [r'|] eqn:E; [|by apply Hk].
  intros [= ->]. destruct (IH eq_refl) as (m & -> & Hm).
  exists (c :: m). split; [done|]. constructor; [by apply Hp|done].
Qed.

Lemma match_here_accepts pat s r :
  Re.match_here pat s = Some r ->
  exists m, s = m ++ r /\
    Forall (fun c => existsb (fun a => Re.accepts a c) pat = true) m.
Proof.
  revert s r. induction pat as [|[p q] pat IH]; intros s r.
  - intros [= ->]. by exists [].
  - assert (forall s r, Re.match_here pat s = Some r ->
              exists m, s = m ++ r /\
                Forall (fun c => existsb (fun a => Re.accepts a c)
                                   (Re.Atom p q :: pat) = true) m) as IH'.
    { intros s' r' (m & -> & Hm)%IH. exists m. split; [done|].
      eapply Forall_impl; [exact Hm|]. intros c Hc. cbn [existsb].
      by rewrite Hc, orb_true_r. }
    assert (forall c, p c = true ->
              existsb (fun a => Re.accepts a c) (Re.Atom p q :: pat) = true) as Hp.
    { intros c Hc. cbn [existsb Re.accepts]. by rewrite Hc. }
    clear IH. cbn [Re.match_here Re.accepts Re.quantifier]. destruct q.
    + destruct s as [|c s]; [done|]. destruct (p c) eqn:Hc; [|done].
      intros (m & -> & Hm)%IH'. exists (c :: m). split; [done|].
      constructor; [by apply Hp|done].
    + destruct s as [|c s]; [by apply IH'|]. destruct (p c) eqn:Hc; [|by apply IH'].
      destruct (Re.match_here pat s) as [r'|] eqn:E; [|by apply IH'].
      intros [= ->]. apply IH' in E as (m & -> & Hm). exists (c :: m).
      split; [done|]. constructor; [by apply Hp|done].
    + by apply star_accepts.
    + destruct s as [|c s]; [done|]. destruct (p c) eqn:Hc; [|done].
      intros (m & -> & Hm)%(star_accepts _ _ _ _ _ Hp IH').
      exists (c :: m). split; [done|]. constructor; [by apply Hp|done].
Qed.

(** When every piece is blank, the text is made of whitespace and of
    what the separators are made of. *)
Lemma split_by_chars f (Q : N -> Prop) n s :
  (forall c, isspace c = true -> Q c) ->
  cuts f (Forall Q) ->
  Forall (fun p => blank p = true) (split_by f n s) -> Forall Q s.
Proof.
  intros Hsp Hf.
  assert (forall p, blank p = true -> Forall Q p) as Hb.
  { intros p Hp%blank_Forall. eapply Forall_impl; [exact Hp|]. exact Hsp. }
  revert s. induction n as [|n IH]; intros s; cbn [split_by].
  - intros [? _]%Forall_cons_1. by apply Hb.
  - destruct (f s) as [[pre rest]|] eqn:E; [|intros [? _]%Forall_cons_1; by apply Hb].
    destruct (Hf _ _ _ E) as (m & -> & Hm).
    intros [Hpre Hrest]%Forall_cons_1. rewrite !Forall_app.
    split; [by apply Hb|]. split; [done|by apply IH].
Qed.

Lemma search_cuts_accepted pat :
  cuts (Re.search pat)
       (Forall (fun c => existsb (fun a => Re.accepts a c) pat = true)).
Proof.
  intros s pre rest (m & -> & Hm)%search_Some.
  exists m. split; [done|].
  apply match_here_accepts in Hm as (m' & Hm' & Hacc).
  by apply app_inv_tail in Hm' as ->.
Qed.

(** The exact condition for the empty segmentation. *)
Lemma split_reviews_nil text :
  _split_reviews text = [] <->
  strip text = [] \/
  (contains [LF; LF] text = false /\
   Forall (fun piece => blank piece = true)
     (if bool_decide (is_Some (Re.search Re.numbered_pattern text))
      then Re.split Re.numbered_pattern text
      else Re.split Re.review_pattern text)).
Proof.
  rewrite strip_nil. split.
  - intros Hnil. destruct (blank text) eqn:Hb; [by left|right].
    destruct (contains [LF; LF] text) eqn:Hc.
    { by destruct (split_reviews_blank_line text Hc Hb). }
    split; [done|]. rewrite split_reviews_cases, Hc in Hnil.
    destruct (bool_decide (is_Some (Re.search Re.numbered_pattern text))).
    { by apply stripped_nonempty_nil. }
    destruct (bool_decide (is_Some (Re.search Re.review_pattern text))) eqn:Hr.
    { by apply stripped_nonempty_nil. }
    apply bool_decide_eq_false in Hr.
    destruct (strip text) eqn:Hs; [|done]. apply strip_nil in Hs. congruence.
  - intros [Hb|[Hc Hpieces]]; [by apply split_reviews_blank|].
    rewrite split_reviews_cases, Hc.
    destruct (bool_decide (is_Some (Re.search Re.numbered_pattern text))).
    { by apply stripped_nonempty_nil. }
    destruct (bool_decide (is_Some (Re.search Re.review_pattern text))) eqn:Hr.
    { by apply stripped_nonempty_nil. }
    apply bool_decide_eq_false in Hr.
    assert (Re.search Re.review_pattern text = None) as Hnone.
    { destruct (Re.search Re.review_pattern text); [|done]. destruct Hr. by eexists. }
    unfold Re.split in Hpieces. cbn [split_by] in Hpieces. rewrite Hnone in Hpieces.
    apply Forall_cons_1 in Hpieces as [Hb _]. apply strip_nil in Hb. by rewrite Hb.
Qed.

(** A character that no marker can hold ends up in a segment. *)
Lemma split_reviews_marker_char text c :
  c ∈ text -> marker_char c = false -> _split_reviews text <> [].
Proof.
  intros Hin Hc Hnil. apply split_reviews_nil in Hnil.
  assert (forall c, isspace c = true -> marker_char c = true) as Hsp.
  { intros c' Hc'. unfold marker_char, Re.numbered_pattern.
    cbn [app existsb Re.accepts]. rewrite Hc'. by rewrite !orb_true_r. }
  assert (Forall (fun c => marker_char c = true) text) as Hall.
  { destruct Hnil as [Hb%strip_nil%blank_Forall|[_ Hpieces]].
    - eapply Forall_impl; [exact Hb|]. exact Hsp.
    - destruct (bool_decide (is_Some (Re.search Re.numbered_pattern text))).
      + apply (split_by_chars _ _ _ _ Hsp) in Hpieces; [done|].
        intros s pre rest E. destruct (search_cuts_accepted _ _ _ _ E) as (m & -> & Hm).
        exists m. split; [done|]. eapply Forall_impl; [exact Hm|].
        intros c' Hc'. unfold marker_char. rewrite existsb_app, Hc'. done.
      + apply (split_by_chars _ _ _ _ Hsp) in Hpieces; [done|].
        intros s pre rest E. destruct (search_cuts_accepted _ _ _ _ E) as (m & -> & Hm).
        exists m. split; [done|]. eapply Forall_impl; [exact Hm|].
        intros c' Hc'. unfold marker_char. rewrite existsb_app, Hc'.
        by rewrite orb_true_r. }
  rewrite Forall_forall in Hall. specialize (Hall c Hin). congruence.
Qed.

(** C2, as the claim has it: a text that is only a numbered marker is not
    blank, and its segmentation is empty. *)
Lemma split_reviews_empty_counterexample :
  strip (py "1. ") <> [] /\ _split_reviews (py "1. ") = [].
Proof. by vm_compute. Qed.

(** C2, amended: every blank text has the empty segmentation.  The
    segmentation is empty exactly when the text is blank, or has no
    blank-line separator and every piece left by the split at its numbered
    markers (at its Review markers, when it has no numbered marker) is
    blank: the text is made of markers and whitespace only, as "1. " and
    "Review:" are.  Every other text has at least one segment: a text
    that is not blank and contains a blank-line separator ("1." before a
    blank line gives ["1."]) or no marker at all, and any text with a
    character that no marker can hold ("1. alpha" gives ["alpha"]). *)
Theorem split_reviews_empty :
  (forall text, strip text = [] -> _split_reviews text = []) /\
  (forall text,
     _split_reviews text = [] <->
     strip text = [] \/
     (contains [LF; LF] text = false /\
      Forall (fun piece => blank piece = true)
        (if bool_decide (is_Some (Re.search Re.numbered_pattern text))
         then Re.split Re.numbered_pattern text
         else Re.split Re.review_pattern text))) /\
  (forall text,
     strip text <> [] ->
     contains [LF; LF] text = true \/
     (Re.search Re.numbered_pattern text = None /\
      Re.search Re.review_pattern text = None) ->
     _split_reviews text <> []) /\
  (forall text c, c ∈ text -> marker_char c = false -> _split_reviews text <> []) /\
  _split_reviews (py "1. ") = [] /\
  _split_reviews (py "Review:") = [] /\
  _split_reviews (py "1. alpha") = [py "alpha"] /\
  _split_reviews (py "1." ++ [LF; LF]) = [py "1."].
Proof.
  split; [|split; [exact split_reviews_nil|]].
  2: split; [|split; [exact split_reviews_marker_char|by vm_compute]].
  - intros text H%strip_nil. by apply split_reviews_blank.
  - intros text Hne Hsep.
    assert (blank text = false) as Hb.
    { destruct (blank text) eqn:Hb; [|done]. by apply strip_nil in Hb. }
    destruct (contains [LF; LF] text) eqn:Hc.
    + by apply split_reviews_blank_line.
    + destruct Hsep as [|[Hn Hr]]; [done|].
      rewrite split_reviews_unmarked by done. by destruct (strip text).
Qed.

Lemma split_reviews_empty_witness :
  _split_reviews (py "  ") = [] /\
  _split_reviews (py "a" ++ [LF; LF] ++ py "b") <> [] /\
  _split_reviews (py "plain text") <> [] /\
  _split_reviews (py "1. alpha") <> [] /\
  _split_reviews (py "12. 7.") = [].
Proof.
  destruct split_reviews_empty as (Hblank & Hnil & Hsome & Hchar & _).
  split; [|split; [|split; [|split]]].
  - apply (Hblank (py "  ")). by vm_compute.
  - apply (Hsome (py "a" ++ [LF; LF] ++ py "b")); [by vm_compute|].
    left. by vm_compute.
  - apply (Hsome (py "plain text")); [by vm_compute|].
    right. by vm_compute.
  - apply (Hchar (py "1. alpha") 0x61%N); [|by vm_compute].
    apply (bool_decide_unpack _). by vm_compute.
  - apply (Hnil (py "12. 7.")). right. split; [by vm_compute|].
    apply (bool_decide_unpack _). by vm_compute.
Defined.

(** ** The orchestration *)

Lemma analyze_reviews_guard model text w :
  _split_reviews text = [] ->
  analyze_reviews model text w =
    (Ok [(py "error", VStr (py "No valid reviews found"))], w).
Proof. intros H. unfold analyze_reviews. by rewrite H. Qed.

(** C3: when the segmentation is empty, and so on every text of
    whitespace only, [analyze_reviews] returns the dictionary whose only
    key is "error", with the message "No valid reviews found"; it raises
    nothing and leaves the world as it was (no call, nothing printed). *)
Theorem analyze_reviews_no_reviews model text w :
  (_split_reviews text = [] \/ strip text = []) ->
  exists result,
    analyze_reviews model text w = (Ok result, w) /\
    keys result = [py "error"] /\
    lookup_key (py "error") result = Some (VStr (py "No valid reviews found")) /\
    result = [(py "error", VStr (py "No valid reviews found"))].
Proof.
  intros H. exists [(py "error", VStr (py "No valid reviews found"))].
  split; [|done].
  apply analyze_reviews_guard. destruct H as [H|H]; [done|].
  by apply split_reviews_blank, strip_nil.
Qed.

Lemma analyze_reviews_no_reviews_witness :
  exists result,
    analyze_reviews (always (Response [])) ([0x20; 0x0A; 0x09]%N) w0 = (Ok result, w0) /\
    keys result = [py "error"].
Proof.
  destruct (analyze_reviews_no_reviews (always (Response [])) ([0x20; 0x0A; 0x09]%N) w0)
    as (result & Hrun & Hkeys & _).
  - right. by vm_compute.
  - by exists result.
Defined.

(** ** Running the monad *)

Lemma run_bind {A B} (m : M A) (f : A -> M B) w :
  (m ≫= f) w =
  match m w with
  | (Ok a, w') => f a w'
  | (Raise e, w') => (Raise e, w')
  end.
Proof. done. Qed.

Lemma run_ret {A} (a : A) w : (mret a : M A) w = (Ok a, w).
Proof. done. Qed.

Lemma run_bind_Ok {A B} (m : M A) (f : A -> M B) w a w' :
  m w = (Ok a, w') -> (m ≫= f) w = f a w'.
Proof. intros H. by rewrite run_bind, H. Qed.

(** ** The sentiment call *)

(** The classifier answers with the label of the chain, sends exactly one
    prompt, and prints only when the call failed. *)
Lemma analyze_single_run model review w :
  let answer := model (prompts w) (sentiment_prompt review) in
  _analyze_single_review_sentiment model review w =
    (Ok (classify_spec answer),
     World (prompts w ++ [sentiment_prompt review])
           (stdout w ++ printed (py "Error analyzing sentiment: ") answer)).
Proof.
  unfold _analyze_single_review_sentiment, try_except.
  rewrite run_bind. unfold generate_content_text.
  destruct (model (prompts w) (sentiment_prompt review)) as [response|msg]; simpl.
  - rewrite app_nil_r. set (s := lower (strip response)).
    unfold Str.eqb. unfold labels.
    destruct (decide (s = py "positive")) as [->|H1]; [done|].
    destruct (decide (s = py "negative")) as [->|H2]; [done|].
    destruct (decide (s = py "neutral")) as [->|H3]; [done|].
    rewrite !bool_decide_false; try done.
    + by destruct (contains (py "positive") s), (contains (py "negative") s).
    + rewrite !elem_of_cons, elem_of_nil. tauto.
  - done.
Qed.

Lemma classify_spec_label answer : classify_spec answer ∈ labels.
Proof.
  unfold classify_spec, labels. destruct answer as [response|]; [|set_solver].
  repeat match goal with |- context [if ?b then _ else _] => destruct b end; set_solver.
Qed.

(** Lower-casing and trimming commute: whitespace has no case, and no
    letter becomes whitespace. *)
Lemma isspace_range c :
  isspace c = true -> (c <= 0x20 \/ c = 0x85 \/ c = 0xA0 \/ 0x1680 <= c)%N.
Proof.
  intros (x & Hx & ->%N.eqb_eq)%existsb_exists.
  assert (forallb (fun c => (c <=? 0x20) || (c =? 0x85) || (c =? 0xA0) || (0x1680 <=? c))%N
            whitespace = true) as H by (by vm_compute).
  rewrite forallb_forall in H. apply H in Hx.
  rewrite !orb_true_iff, !N.leb_le, !N.eqb_eq in Hx. tauto.
Qed.

Lemma lower_char_space c : isspace c = true -> lower_char c = [c].
Proof.
  intros (x & Hx & ->%N.eqb_eq)%existsb_exists.
  assert (forallb (fun c => bool_decide (lower_char c = [c])) whitespace = true) as H
    by (by vm_compute).
  rewrite forallb_forall in H. eapply bool_decide_eq_true_1, H, Hx.
Qed.

Lemma lower_char_nonspace c :
  isspace c = false ->
  lower_char c <> [] /\ Forall (fun x => isspace x = false) (lower_char c).
Proof.
  intros Hc.
  assert (forall x : N, (0x61 <= x <= 0x7A \/ 0xE0 <= x <= 0xFE)%N -> isspace x = false) as Hr.
  { intros x Hx. destruct (isspace x) eqn:E; [|done]. apply isspace_range in E. lia. }
  unfold lower_char.
  destruct ((0x41 <=? c) && (c <=? 0x5A))%N eqn:E1.
  { apply andb_true_iff in E1 as [?%N.leb_le ?%N.leb_le].
    split; [done|]. repeat constructor. apply Hr. lia. }
  destruct ((0xC0 <=? c) && (c <=? 0xDE) && negb (c =? 0xD7))%N eqn:E2.
  { apply andb_true_iff in E2 as [[?%N.leb_le ?%N.leb_le]%andb_true_iff _].
    split; [done|]. repeat constructor. apply Hr. lia. }
  repeat match goal with
         | |- context [if ?b then _ else _] => destruct b
         end; (split; [done|]); by repeat constructor.
Qed.

Lemma lstrip_lower s : lstrip (lower s) = lower (lstrip s).
Proof.
  unfold lstrip, lower. induction s as [|c s IH]; [done|].
  rewrite bind_cons. cbn [drop_while]. destruct (isspace c) eqn:Hc.
  - rewrite (lower_char_space _ Hc). cbn [app drop_while]. by rewrite Hc.
  - destruct (lower_char_nonspace _ Hc) as [Hne Hall]. rewrite bind_cons.
    destruct (lower_char c) as [|x xs]; [done|].
    apply Forall_cons_1 in Hall as [Hx _].
    cbn [app drop_while]. by rewrite Hx.
Qed.

Lemma bind_single (f : N -> list N) c : [c] ≫= f = f c.
Proof. rewrite bind_cons. apply app_nil_r. Qed.

Lemma rstrip_lower s : rstrip (lower s) = lower (rstrip s).
Proof.
  unfold lower. induction s as [|c s IH] using rev_ind; [done|].
  rewrite bind_app, bind_single, (rstrip_snoc s).
  destruct (isspace c) eqn:Hc.
  - by rewrite (lower_char_space _ Hc), rstrip_snoc, Hc.
  - destruct (lower_char_nonspace _ Hc) as [Hne Hall].
    remember (lower_char c) as lc eqn:Elc.
    destruct lc as [|y ys _] using rev_ind; [done|].
    apply Forall_app in Hall as [_ [Hy _]%Forall_cons_1].
    rewrite bind_app, bind_single, <- Elc, app_assoc, rstrip_snoc.
    by rewrite Hy.
Qed.

Lemma strip_lower s : strip (lower s) = lower (strip s).
Proof. unfold strip. by rewrite lstrip_lower, rstrip_lower. Qed.

(** C4: the classifier never raises; its label is one of the three, and is
    the one the chain gives on the trimmed, lower-cased response (in
    either order of the two): the response itself when it is a label,
    else positive when it contains "positive", else negative when it
    contains "negative", else neutral; neutral too when the call fails. *)
Theorem classify_chain model review w :
  exists label,
    (_analyze_single_review_sentiment model review w).1 = Ok label /\
    label ∈ labels /\
    label = classify_spec (model (prompts w) (sentiment_prompt review)) /\
    (forall response, lower (strip response) = strip (lower response)).
Proof.
  eexists. rewrite analyze_single_run. simpl. split; [done|].
  split; [apply classify_spec_label|]. split; [done|].
  intros response. by rewrite strip_lower.
Qed.

(** ** The insight call *)

Lemma drop_while_ext p q s :
  (forall c, p c = q c) -> drop_while p s = drop_while q s.
Proof.
  intros H. induction s as [|c s IH]; simpl; [done|]. by rewrite H, IH.
Qed.

Lemma startswith_single a c rest : startswith [a] (c :: rest) = (c =? a)%N.
Proof. cbn [startswith]. by rewrite andb_true_r, N.eqb_sym. Qed.

Lemma startswith_bullet c rest :
  startswith [BULLET] (c :: rest) || startswith (py "-") (c :: rest)
  || startswith (py "*") (c :: rest) = is_bullet c.
Proof.
  change (py "-") with [0x2D%N]. change (py "*") with [0x2A%N].
  by rewrite !startswith_single.
Qed.

Lemma bullet_or_space c :
  existsb (N.eqb c) (BULLET :: py "-* ") = is_bullet c || (c =? 0x20)%N.
Proof.
  change (py "-* ") with [0x2D; 0x2A; 0x20]%N. cbn [existsb]. unfold is_bullet.
  by rewrite orb_false_r, !orb_assoc.
Qed.

(** One round of the loop appends what the rule accepts of the line. *)
Lemma parse_line_accept insights line :
  parse_line insights line = insights ++ accept line.
Proof.
  unfold parse_line, accept, lstrip_chars.
  destruct (strip line) as [|c rest] eqn:E.
  - cbn [nonempty andb]. by rewrite app_nil_r.
  - cbn [nonempty andb]. rewrite startswith_bullet.
    destruct (is_bullet c) eqn:Hb.
    + rewrite (drop_while_ext _ _ _ bullet_or_space).
      destruct (strip (drop_while _ _)); cbn [nonempty]; [by rewrite app_nil_r|done].
    + destruct (3 <? _); [done|by rewrite app_nil_r].
Qed.

Lemma foldl_parse_line lines insights :
  foldl parse_line insights lines = insights ++ (lines ≫= accept).
Proof.
  revert insights. induction lines as [|l lines IH]; intros insights; simpl.
  - by rewrite app_nil_r.
  - by rewrite IH, parse_line_accept, app_assoc.
Qed.

(** The extractor never raises: it sends one prompt and returns the
    accepted lines, or the fixed message when the call failed. *)
Lemma overall_insights_run model text w :
  let answer := model (prompts w) (insights_prompt text) in
  _get_overall_insights model text w =
    (Ok (extract answer),
     World (prompts w ++ [insights_prompt text])
           (stdout w ++ printed (py "Error getting insights: ") answer)).
Proof.
  unfold _get_overall_insights, try_except.
  rewrite run_bind. unfold generate_content_text.
  destruct (model (prompts w) (insights_prompt text)) as [response|msg]; simpl; [|done].
  by rewrite app_nil_r, foldl_parse_line.
Qed.

(** C9, as the claim has it: a line of bullet markers only starts with a
    marker and is dropped by the source; a line with two leading markers
    loses both. *)
Lemma overall_insights_rule_counterexample :
  let response := py "- - - -" ++ [LF] ++ py "**Tip** go early" in
  extract_spec (Response response) = [py "- - -"; py "*Tip** go early"] /\
  (_get_overall_insights (always (Response response)) [] w0).1 = Ok [py "Tip** go early"] /\
  (_get_overall_insights (always (Response response)) [] w0).1 <> Ok (extract_spec (Response response)).
Proof. by vm_compute. Qed.

(** C9, amended: the extractor returns, in the order met and cut to the
    first 7, what the rule accepts of each line of the response: a trimmed
    line that starts with a bullet marker, with all its leading bullet
    markers and spaces removed and trimmed again, unless nothing is left;
    a trimmed line without a leading marker when it has more than 3
    tokens.  When the call fails it returns the one message
    "Unable to generate insights from reviews" and raises nothing. *)
Theorem overall_insights_extract model text w :
  let answer := model (prompts w) (insights_prompt text) in
  (_get_overall_insights model text w).1 = Ok (extract answer) /\
  length (extract answer) <= 7 /\
  (forall msg, extract (Failure msg) = [py "Unable to generate insights from reviews"]).
Proof.
  intros answer. rewrite overall_insights_run. split; [done|]. split; [|done].
  destruct answer; simpl; [|lia]. rewrite length_take. lia.
Qed.

(** ** Counting labels *)

Lemma Counter_foldl (l : list str) (c : gmap str Z) k :
  default 0%Z (foldl (fun c x => <[x := (default 0 (c !! x) + 1)%Z]> c) c l !! k) =
  (default 0 (c !! k) + Z.of_nat (length (filter (eq k) l)))%Z.
Proof.
  revert c. induction l as [|x l IH]; intros c; simpl; [lia|].
  rewrite IH, lookup_insert. rewrite filter_cons.
  destruct (decide (x = k)) as [->|Hne].
  - rewrite decide_True by done. simpl. lia.
  - rewrite decide_False by done. lia.
Qed.

(** [Counter(l).get(k, 0)] is the number of occurrences of [k] in [l]. *)
Lemma Counter_get (l : list str) k :
  get (Counter l) k 0 = Z.of_nat (length (filter (eq k) l)).
Proof. unfold get, Counter. by rewrite Counter_foldl, lookup_empty. Qed.

Lemma count_labels (l : list str) :
  Forall (fun s => s ∈ labels) l ->
  length (filter (eq (py "positive")) l) + length (filter (eq (py "neutral")) l)
  + length (filter (eq (py "negative")) l) = length l.
Proof.
  induction 1 as [|x l Hx _ IH]; [done|].
  rewrite !filter_cons. unfold labels in Hx.
  rewrite !elem_of_cons, elem_of_nil in Hx.
  destruct Hx as [->|[->|[->|[]]]];
    repeat (first [rewrite decide_True by done | rewrite decide_False by done]);
    simpl; lia.
Qed.

Lemma distribution_labels (sentiments : list str) :
  Forall (fun s => s ∈ labels) sentiments ->
  let d := distribution (Counter sentiments) in
  keys d = [py "Positive"; py "Neutral"; py "Negative"] /\
  Forall (fun n => (0 <= n)%Z) (values d) /\
  foldr Z.add 0%Z (values d) = Z.of_nat (length sentiments).
Proof.
  intros H%count_labels. unfold distribution, keys, values. simpl.
  rewrite !Counter_get. split; [done|]. split.
  - repeat constructor; lia.
  - lia.
Qed.

(** ** Quotients that fit in a float *)

Lemma digits2_pos_lower p : (2 ^ (Zpos (digits2_pos p) - 1) <= Zpos p)%Z.
Proof.
  induction p as [p IH|p IH|]; cbn [digits2_pos]; [| |done].
  - rewrite Pos2Z.inj_succ, Z.sub_succ_l, Z.pow_succ_r by lia. lia.
  - rewrite Pos2Z.inj_succ, Z.sub_succ_l, Z.pow_succ_r by lia. lia.
Qed.

Lemma Zdigits2_bound m k :
  (0 <= k)%Z -> (0 <= m <= 2 ^ k)%Z -> (Zdigits2 m <= k + 1)%Z.
Proof.
  intros Hk [H0 Hm]. destruct m as [|p|p]; [simpl; lia| |lia].
  cbn [Zdigits2]. pose proof (digits2_pos_lower p) as Hp.
  assert (2 ^ (Zpos (digits2_pos p) - 1) <= 2 ^ k)%Z as Hle by lia.
  apply Z.pow_le_mono_r_iff in Hle; lia.
Qed.

Lemma digits2_pos_succ p : (Zpos (digits2_pos (Pos.succ p)) <= Zpos (digits2_pos p) + 1)%Z.
Proof.
  induction p as [p IH|p IH|]; simpl; rewrite ?Pos2Z.inj_succ; lia.
Qed.

Lemma Zdigits2_nonneg m : (0 <= Zdigits2 m)%Z.
Proof. by destruct m. Qed.

Lemma Zdigits2_succ m : (0 <= m)%Z -> (Zdigits2 (m + 1) <= Zdigits2 m + 1)%Z.
Proof.
  destruct m as [|p|p]; [done| |lia]. intros _.
  change (Zpos p + 1)%Z with (Zpos (p + 1)). rewrite Pos.add_1_r.
  apply digits2_pos_succ.
Qed.

Lemma round_nearest_even_digits m l :
  (0 <= m)%Z ->
  (0 <= round_nearest_even m l)%Z /\
  (Zdigits2 (round_nearest_even m l) <= Zdigits2 m + 1)%Z.
Proof.
  intros Hm. pose proof (Zdigits2_succ m Hm).
  unfold round_nearest_even.
  destruct l as [|[| |]]; try destruct (Z.even m); lia.
Qed.

(** One step to the right takes one digit off. *)
Lemma shr_1_digits mrs D :
  (0 <= shr_m mrs)%Z -> (Zdigits2 (shr_m mrs) <= D)%Z ->
  (0 <= shr_m (shr_1 mrs))%Z /\ (Zdigits2 (shr_m (shr_1 mrs)) <= Z.max 0 (D - 1))%Z.
Proof.
  destruct mrs as [m r s]. cbn [shr_m shr_1].
  destruct m as [|[p|p|]|p]; cbn [shr_m Zdigits2 digits2_pos];
    rewrite ?Pos2Z.inj_succ; lia.
Qed.

Lemma iter_shr_1_digits p mrs D :
  (0 <= shr_m mrs)%Z -> (Zdigits2 (shr_m mrs) <= D)%Z ->
  (0 <= shr_m (SpecFloat.iter_pos shr_1 p mrs))%Z /\
  (Zdigits2 (shr_m (SpecFloat.iter_pos shr_1 p mrs)) <= Z.max 0 (D - Zpos p))%Z.
Proof.
  revert mrs D. induction p as [p IH|p IH|]; intros mrs D H0 HD; cbn [SpecFloat.iter_pos].
  - destruct (shr_1_digits mrs D H0 HD) as [H1 H1'].
    destruct (IH _ _ H1 H1') as [H2 H2'].
    destruct (IH _ _ H2 H2') as [H3 H3']. split; [done|]. lia.
  - destruct (IH _ _ H0 HD) as [H2 H2'].
    destruct (IH _ _ H2 H2') as [H3 H3']. split; [done|]. lia.
  - by apply shr_1_digits.
Qed.

(** Shifting to the exponent of the format keeps the magnitude. *)
Lemma shr_fexp_digits m e l mrs e' :
  (0 <= m)%Z ->
  shr_fexp prec emax m e l = (mrs, e') ->
  (0 <= shr_m mrs)%Z /\
  e' = Z.max e (fexp prec emax (Zdigits2 m + e)) /\
  (Zdigits2 (shr_m mrs) + e' <= Z.max (Zdigits2 m + e) e')%Z.
Proof.
  intros Hm. unfold shr_fexp, shr.
  assert (shr_m (shr_record_of_loc m l) = m) as Hrec by (by destruct l as [|[| |]]).
  pose proof (Zdigits2_nonneg m).
  destruct (fexp prec emax (Zdigits2 m + e) - e)%Z as [|p|p] eqn:En; intros [= <- <-].
  - rewrite Hrec. lia.
  - destruct (iter_shr_1_digits p (shr_record_of_loc m l) (Zdigits2 m)) as [H1 H2];
      rewrite ?Hrec; [done|lia|]. lia.
  - rewrite Hrec. lia.
Qed.

(** A number below [2^1023] does not round to an infinity. *)
Lemma binary_round_aux_finite sx mx ex lx :
  (0 <= mx)%Z -> (ex <= 971)%Z -> (Zdigits2 mx + ex <= 1023)%Z ->
  is_inf (binary_round_aux prec emax sx mx ex lx) = false.
Proof.
  intros Hm He Hd. unfold binary_round_aux.
  destruct (shr_fexp prec emax mx ex lx) as [mrs1 e1] eqn:E1.
  destruct (shr_fexp_digits _ _ _ _ _ Hm E1) as (H1 & He1 & Hd1).
  destruct (round_nearest_even_digits (shr_m mrs1) (loc_of_shr_record mrs1) H1)
    as [H2 Hd2].
  destruct (shr_fexp prec emax (round_nearest_even _ _) e1 loc_Exact) as [mrs2 e2] eqn:E2.
  destruct (shr_fexp_digits _ _ _ _ _ H2 E2) as (H3 & He2 & Hd3).
  destruct (shr_m mrs2) as [|m|m]; [done| |done].
  assert (e2 <= emax - prec)%Z as Hle.
  { unfold fexp, emin, prec, emax in *. lia. }
  by rewrite (proj2 (Z.leb_le _ _) Hle).
Qed.

Lemma SFdiv_bounded sx sy (pa pb : positive) :
  (pa <= pb)%positive ->
  is_inf (SFdiv prec emax (S754_finite sx pa 0) (S754_finite sy pb 0)) = false.
Proof.
  intros Hle. cbn [SFdiv]. unfold SFdiv_core_binary.
  set (e' := Z.min _ _).
  assert (e' <= 0)%Z as He' by (unfold e'; lia).
  destruct (Z.div_eucl _ (Zpos pb)) as [q r] eqn:Ediv.
  assert (0 <= q <= 2 ^ (- e'))%Z as Hq.
  { assert (q = (match (0 - 0 - e')%Z with
                 | Zpos _ => Z.shiftl (Zpos pa) (0 - 0 - e')
                 | Z0 => Zpos pa
                 | Zneg _ => 0%Z
                 end / Zpos pb)%Z) as ->.
    { unfold Z.div. by rewrite Ediv. }
    pose proof (Z.pow_pos_nonneg 2 (- e') ltac:(lia) ltac:(lia)) as Hpow.
    destruct (0 - 0 - e')%Z as [|s|s] eqn:Es.
    - split; [apply Z.div_pos; lia|]. apply Z.div_le_upper_bound; nia.
    - rewrite Z.shiftl_mul_pow2 by lia. replace (- e')%Z with (Zpos s) by lia.
      split; [apply Z.div_pos; [|lia]; nia|]. apply Z.div_le_upper_bound; [lia|]. nia.
    - lia. }
  apply binary_round_aux_finite; [lia|lia|].
  pose proof (Zdigits2_bound q (- e') ltac:(lia) Hq). lia.
Qed.

(** The quotient of an int by one that is not smaller in magnitude fits. *)
Lemma int_truediv_bounded a b :
  b <> 0%Z -> (Z.abs a <= Z.abs b)%Z -> is_inf (int_truediv a b) = false.
Proof.
  intros Hb Hab. unfold int_truediv.
  destruct a as [|pa|pa], b as [|pb|pb]; try done; cbn [raw];
    apply SFdiv_bounded; lia.
Qed.

(** ** The aggregator *)

Lemma getitem_run {V} (d : dict V) k v w :
  lookup_key k d = Some v -> getitem d k w = (Ok v, w).
Proof. unfold getitem. by intros ->. Qed.

Lemma truediv_run a b w :
  b <> 0%Z -> is_inf (int_truediv a b) = false ->
  truediv a b w = (Ok (int_truediv a b), w).
Proof. unfold truediv. intros H%Z.eqb_neq Hq. by rewrite H, Hq. Qed.


Lemma summary_insights_zero d w : _generate_summary_insights d 0 w = (Ok [], w).
Proof. done. Qed.

(** Past the guard on the total, both keys are read, both quotients are
    taken (they must fit in a float), and the chain picks the messages. *)
Lemma summary_insights_run d total p n w :
  lookup_key (py "Positive") d = Some p ->
  lookup_key (py "Negative") d = Some n ->
  total <> 0%Z ->
  is_inf (int_truediv p total) = false ->
  is_inf (int_truediv n total) = false ->
  _generate_summary_insights d total w = (Ok (rule_insights p n total), w).
Proof.
  intros Hp Hn Ht Hpq Hnq. unfold _generate_summary_insights.
  rewrite (proj2 (Z.eqb_neq _ _) Ht).
  rewrite (run_bind_Ok _ _ _ _ _ (getitem_run _ _ _ _ Hp)).
  rewrite (run_bind_Ok _ _ _ _ _ (truediv_run _ _ _ Ht Hpq)).
  rewrite (run_bind_Ok _ _ _ _ _ (getitem_run _ _ _ _ Hn)).
  rewrite (run_bind_Ok _ _ _ _ _ (truediv_run _ _ _ Ht Hnq)).
  rewrite (run_bind_Ok _ _ _ _ _ (getitem_run _ _ _ _ Hp)).
  rewrite (run_bind_Ok _ _ _ _ _ (getitem_run _ _ _ _ Hn)).
  rewrite run_ret. unfold rule_insights, threshold_insight, pct.
  by repeat match goal with |- context [if ?b then _ else _] => destruct b end.
Qed.

(** A count of labels never exceeds their number, so its quotient by
    the total fits in a float. *)
Lemma Counter_quotient (sentiments : list str) k :
  sentiments <> [] ->
  is_inf (int_truediv (get (Counter sentiments) k 0) (Z.of_nat (length sentiments))) = false.
Proof.
  intros Hne. rewrite Counter_get.
  pose proof (length_filter (eq k) sentiments).
  apply int_truediv_bounded; [destruct sentiments; [done|simpl; lia]|lia].
Qed.

Lemma summary_insights_distribution (sentiments : list str) w :
  let c := Counter sentiments in
  let total := Z.of_nat (length sentiments) in
  _generate_summary_insights (distribution c) total w = (Ok (summary_of c total), w).
Proof.
  intros c total. unfold summary_of. destruct (total =? 0)%Z eqn:Ht.
  - apply Z.eqb_eq in Ht as ->. apply summary_insights_zero.
  - apply Z.eqb_neq in Ht.
    assert (sentiments <> []) as Hne by (intros ->; by apply Ht).
    apply summary_insights_run; [done|done|done| |]; by apply Counter_quotient.
Qed.


Lemma threshold_insight_message p n total :
  threshold_insight p n total ∈ threshold_messages.
Proof.
  unfold threshold_insight, threshold_messages.
  repeat match goal with |- context [if ?b then _ else _] => destruct b end; set_solver.
Qed.



(** ** The orchestration, past the guard *)

Lemma analyze_one_run model sentiments review w :
  analyze_one model sentiments review w =
  if eligible review
  then let answer := model (prompts w) (sentiment_prompt review) in
       (Ok (sentiments ++ [classify_spec answer]),
        World (prompts w ++ [sentiment_prompt review])
              (stdout w ++ printed (py "Error analyzing sentiment: ") answer))
  else (Ok sentiments, w).
Proof.
  unfold analyze_one, eligible. destruct (10 <? length (strip review)); [|done].
  by rewrite (run_bind_Ok _ _ _ _ _ (analyze_single_run model review w)).
Qed.

(** The loop classifies the eligible segments, in order, and nothing else. *)
Lemma sentiments_run model reviews sentiments w :
  exists new w',
    for_each reviews (analyze_one model) sentiments w = (Ok (sentiments ++ new), w') /\
    Forall (fun s => s ∈ labels) new /\
    length new = length (List.filter eligible reviews) /\
    prompts w' = prompts w ++ (sentiment_prompt <$> List.filter eligible reviews).
Proof.
  revert sentiments w. induction reviews as [|r reviews IH]; intros sentiments w.
  - exists [], w. cbn [for_each List.filter]. rewrite run_ret, !app_nil_r.
    repeat split; constructor.
  - cbn [for_each List.filter]. rewrite run_bind, analyze_one_run.
    destruct (eligible r).
  + cbv zeta. set (label := classify_spec _). set (w1 := World _ _).
    destruct (IH (sentiments ++ [label]) w1) as (new & w' & Hrun & Hl & Hlen & Hp).
    exists (label :: new), w'. rewrite Hrun, <- app_assoc. split; [done|].
    split; [constructor; [apply classify_spec_label|done]|].
    split; [simpl; lia|].
    rewrite Hp. unfold w1. simpl. by rewrite <- app_assoc.
  + destruct (IH sentiments w) as (new & w' & Hrun & Hl & Hlen & Hp).
    by exists new, w'.
Qed.

Lemma percentage_run total k v w :
  ((0 < total)%Z -> is_inf (int_truediv v total) = false) ->
  percentage total (k, v) w = (Ok (k, percentage_value total v), w).
Proof.
  intros Hq. unfold percentage, percentage_value.
  destruct (0 <? total)%Z eqn:Ht; [|done].
  apply Z.ltb_lt in Ht.
  by rewrite (run_bind_Ok _ _ _ _ _ (truediv_run v total w ltac:(lia) (Hq Ht))).
Qed.

Lemma percentages_run total (d : dict Z) acc w :
  Forall (fun kv => (0 < total)%Z -> is_inf (int_truediv kv.2 total) = false) d ->
  for_each d (fun acc kv => e ← percentage total kv; mret (acc ++ [e])) acc w =
    (Ok (acc ++ (prod_map id (percentage_value total) <$> d)), w).
Proof.
  intros Hd. revert acc.
  induction Hd as [|[k v] d Hv _ IH]; intros acc; cbn [for_each fmap list_fmap].
  - by rewrite run_ret, app_nil_r.
  - rewrite run_bind, (run_bind_Ok _ _ _ _ _ (percentage_run total k v w Hv)), run_ret.
    rewrite IH, <- app_assoc. done.
Qed.

Lemma distribution_quotients (sentiments : list str) :
  let total := Z.of_nat (length sentiments) in
  Forall (fun kv => (0 < total)%Z -> is_inf (int_truediv kv.2 total) = false)
         (distribution (Counter sentiments)).
Proof.
  intros total. unfold distribution.
  repeat (apply Forall_cons_2; [|]); [ | | |apply Forall_nil_2];
    intros Ht; apply Counter_quotient; intros E; unfold total in Ht; rewrite E in Ht; simpl in Ht; lia.
Qed.

(** Once there is a segment, the run cannot raise: it classifies the
    eligible segments, asks for the insights, and assembles the result. *)
Lemma analyze_reviews_run model text w :
  _split_reviews text <> [] ->
  exists sentiments w1,
    for_each (_split_reviews text) (analyze_one model) [] w = (Ok sentiments, w1) /\
    let answer := model (prompts w1) (insights_prompt text) in
    analyze_reviews model text w =
      (Ok (result_of sentiments (extract answer)),
       World (prompts w1 ++ [insights_prompt text])
             (stdout w1 ++ printed (py "Error getting insights: ") answer)).
Proof.
  intros Hne. unfold analyze_reviews.
  destruct (_split_reviews text) as [|r rs] eqn:Hs; [done|]. clear Hne.
  cbn [nonempty_list negb].
  destruct (sentiments_run model (r :: rs) [] w) as (sentiments & w1 & Hrun & _).
  rewrite app_nil_l in Hrun. exists sentiments, w1. split; [done|].
  rewrite (run_bind_Ok _ _ _ _ _ Hrun).
  rewrite (run_bind_Ok _ _ _ _ _ (overall_insights_run model text w1)).
  rewrite (run_bind_Ok _ _ _ _ _ (summary_insights_distribution sentiments _)).
  rewrite (run_bind_Ok _ _ _ _ _ (percentages_run _ _ _ _ (distribution_quotients sentiments))).
  by rewrite run_ret.
Qed.

Lemma sentiments_run_none model reviews sentiments w :
  List.filter eligible reviews = [] ->
  for_each reviews (analyze_one model) sentiments w = (Ok sentiments, w).
Proof.
  induction reviews as [|r reviews IH]; cbn [for_each List.filter]; [done|].
  rewrite run_bind, analyze_one_run. destruct (eligible r); [done|]. apply IH.
Qed.

Lemma analyze_reviews_classifies model text w :
  let segments := _split_reviews text in
  let classified := List.filter eligible segments in
  exists result w',
    analyze_reviews model text w = (Ok result, w') /\
    lookup_key (py "total_reviews") result =
      (if nonempty_list segments
       then Some (VInt (Z.of_nat (length classified))) else None) /\
    prompts w' =
      prompts w ++ (sentiment_prompt <$> classified) ++
      (if nonempty_list segments then [insights_prompt text] else []).
Proof.
  intros segments classified.
  destruct (nonempty_list segments) eqn:Hne.
  - assert (segments <> []) as Hne' by (by intros E; rewrite E in Hne).
    destruct (analyze_reviews_run model text w Hne') as (sentiments & w1 & Hloop & Hrun).
    destruct (sentiments_run model segments [] w)
      as (new & w1' & Hloop' & _ & Hlen & Hp).
    unfold segments in Hloop'. rewrite Hloop in Hloop'. injection Hloop' as -> ->.
    eexists _, _. split; [exact Hrun|]. split.
    + cbn. by rewrite Hlen.
    + cbn [prompts]. by rewrite Hp, <- app_assoc.
  - assert (segments = []) as E by (by destruct segments).
    eexists _, _. split; [by apply analyze_reviews_guard|].
    unfold classified. rewrite E. split; [done|].
    cbn. by rewrite app_nil_r.
Qed.

Lemma analyze_reviews_labels model text w :
  _split_reviews text <> [] ->
  exists sentiments overall w',
    analyze_reviews model text w = (Ok (result_of sentiments overall), w') /\
    Forall (fun s => s ∈ labels) sentiments /\
    length sentiments = length (List.filter eligible (_split_reviews text)).
Proof.
  intros Hne.
  destruct (analyze_reviews_run model text w Hne) as (sentiments & w1 & Hloop & Hrun).
  destruct (sentiments_run model (_split_reviews text) [] w)
    as (new & w1' & Hloop' & Hl & Hlen & _).
  rewrite Hloop in Hloop'. injection Hloop' as -> ->.
  by eexists _, _, _.
Qed.

(** C6: for every sequence of labels the distribution has exactly the keys
    Positive, Neutral and Negative, its counts are non-negative, and they
    add up to the length of the sequence; in the result of
    [analyze_reviews] they add up to [total_reviews], the number of
    classified segments. *)
Theorem distribution_sum :
  (forall sentiments : list str,
     Forall (fun s => s ∈ labels) sentiments ->
     let d := distribution (Counter sentiments) in
     keys d = [py "Positive"; py "Neutral"; py "Negative"] /\
     Forall (fun n => (0 <= n)%Z) (values d) /\
     foldr Z.add 0%Z (values d) = Z.of_nat (length sentiments)) /\
  (forall model text w,
     _split_reviews text <> [] ->
     exists result w' (d : dict Z),
       analyze_reviews model text w = (Ok result, w') /\
       lookup_key (py "sentiment_distribution") result =
         Some (VDict (prod_map id VInt <$> d)) /\
       keys d = [py "Positive"; py "Neutral"; py "Negative"] /\
       Forall (fun n => (0 <= n)%Z) (values d) /\
       lookup_key (py "total_reviews") result = Some (VInt (foldr Z.add 0%Z (values d))) /\
       foldr Z.add 0%Z (values d) =
         Z.of_nat (length (List.filter eligible (_split_reviews text)))).
Proof.
  split; [exact distribution_labels|].
  intros model text w Hne.
  destruct (analyze_reviews_labels model text w Hne)
    as (sentiments & overall & w' & Hrun & Hl & Hlen).
  destruct (distribution_labels sentiments Hl) as (Hk & Hpos & Hsum).
  exists (result_of sentiments overall), w', (distribution (Counter sentiments)).
  split; [done|]. split; [done|]. split; [done|]. split; [done|].
  rewrite Hsum. split; [done|]. by rewrite Hlen.
Qed.

Lemma distribution_sum_witness :
  (let sentiments := [py "positive"; py "negative"; py "positive"; py "neutral"] in
   foldr Z.add 0%Z (values (distribution (Counter sentiments))) = 4%Z) /\
  (exists result w' (d : dict Z),
     analyze_reviews (always (Response (py "Negative."))) (py "The beach was crowded") w0
       = (Ok result, w') /\
     lookup_key (py "sentiment_distribution") result =
       Some (VDict (prod_map id VInt <$> d)) /\
     foldr Z.add 0%Z (values d) = 1%Z).
Proof.
  split.
  - intros sentiments. apply (proj1 distribution_sum sentiments).
    apply (bool_decide_unpack _). by vm_compute.
  - destruct (proj2 distribution_sum (always (Response (py "Negative.")))
                (py "The beach was crowded") w0)
      as (result & w' & d & Hrun & Hd & _ & _ & _ & Hsum); [by vm_compute|].
    by exists result, w', d.
Defined.

(** C5: for every raw text, [analyze_reviews] sends to the classifier
    exactly the segments whose trimmed length exceeds 10, in order (and
    then, if there is any segment at all, asks once for the insights), and
    the [total_reviews] of the result is the number of those segments.  A
    5-character segment and a 50-character segment give
    [total_reviews == 1]. *)
Theorem analyze_reviews_eligible :
  (forall model text w,
     let segments := _split_reviews text in
     let classified := List.filter (fun r => 10 <? length (strip r)) segments in
     exists result w',
       analyze_reviews model text w = (Ok result, w') /\
       lookup_key (py "total_reviews") result =
         (if nonempty_list segments
          then Some (VInt (Z.of_nat (length classified))) else None) /\
       prompts w' =
         prompts w ++ (sentiment_prompt <$> classified) ++
         (if nonempty_list segments then [insights_prompt text] else [])) /\
  (let text := short_review ++ [LF; LF] ++ long_review in
   length short_review = 5 /\ length long_review = 50 /\
   _split_reviews text = [short_review; long_review] /\
   forall model w,
     exists result w',
       analyze_reviews model text w = (Ok result, w') /\
       lookup_key (py "total_reviews") result = Some (VInt 1) /\
       prompts w' =
         prompts w ++ [sentiment_prompt long_review; insights_prompt text]).
Proof.
  split; [exact analyze_reviews_classifies|].
  intros text. do 3 (split; [by vm_compute|]).
  intros model w.
  destruct (analyze_reviews_classifies model text w) as (result & w' & Hrun & Ht & Hp).
  exists result, w'. split; [done|]. split; [exact Ht|exact Hp].
Qed.

(** C7: [analyze_reviews] never raises, so it never divides by zero; on a
    total of zero the rule insights are empty and each percentage is the
    integer 0, both without a quotient being taken; and when no segment is
    eligible the result has total 0, three zero counts, the insights of
    the model alone and three zero percentages. *)
Theorem analyze_reviews_no_zero_division model text w :
  (exists result w', analyze_reviews model text w = (Ok result, w')) /\
  (forall d, _generate_summary_insights d 0 w = (Ok [], w)) /\
  (forall k v, percentage 0 (k, v) w = (Ok (k, VInt 0), w)) /\
  (_split_reviews text <> [] ->
   List.filter eligible (_split_reviews text) = [] ->
   exists overall w',
     _get_overall_insights model text w = (Ok overall, w') /\
     analyze_reviews model text w =
       (Ok [ (py "total_reviews", VInt 0);
             (py "sentiment_distribution",
              VDict [(py "Positive", VInt 0); (py "Neutral", VInt 0);
                     (py "Negative", VInt 0)]);
             (py "insights", VList overall);
             (py "sentiment_percentages",
              VDict [(py "Positive", VInt 0); (py "Neutral", VInt 0);
                     (py "Negative", VInt 0)]) ], w')).
Proof.
  split; [|split; [|split]].
  - destruct (_split_reviews text) eqn:Hs.
    + eexists _, _. by apply analyze_reviews_guard.
    + destruct (analyze_reviews_run model text w) as (? & ? & _ & Hrun); [by rewrite Hs|].
      by eexists _, _.
  - intros d. apply summary_insights_zero.
  - intros k v. apply percentage_run. lia.
  - intros Hne Hnone.
    destruct (analyze_reviews_run model text w Hne) as (sentiments & w1 & Hloop & Hrun).
    rewrite (sentiments_run_none _ _ _ _ Hnone) in Hloop. injection Hloop as <- <-.
    eexists _, _. split; [apply overall_insights_run|].
    rewrite Hrun. f_equal. unfold result_of. cbn. by rewrite app_nil_r.
Qed.

Lemma analyze_reviews_no_zero_division_witness :
  exists overall w',
    analyze_reviews (always (Failure (py "timeout"))) (py "Too short") w0 =
      (Ok [ (py "total_reviews", VInt 0);
            (py "sentiment_distribution",
             VDict [(py "Positive", VInt 0); (py "Neutral", VInt 0);
                    (py "Negative", VInt 0)]);
            (py "insights", VList overall);
            (py "sentiment_percentages",
             VDict [(py "Positive", VInt 0); (py "Neutral", VInt 0);
                    (py "Negative", VInt 0)]) ], w').
Proof.
  destruct (analyze_reviews_no_zero_division (always (Failure (py "timeout")))
              (py "Too short") w0) as (_ & _ & _ & H).
  destruct H as (overall & w' & _ & Hrun); [by vm_compute|by vm_compute|].
  by exists overall, w'.
Defined.

(** ** The numbered marker *)

Lemma star_drop_while p s : Re.star p (fun s => Some s) s = Some (drop_while p s).
Proof.
  induction s as [|c s IH]; cbn [Re.star drop_while]; [done|].
  destruct (p c); [by rewrite IH|done].
Qed.

(** A digit followed by a period is a marker wherever it stands; the
    marker also takes the whitespace after the period. *)
Lemma match_numbered_digit_period d post :
  isdigit d = true ->
  Re.match_here Re.numbered_pattern (d :: 0x2E%N :: post) = Some (lstrip post).
Proof.
  intros Hd. unfold Re.numbered_pattern.
  cbn [Re.match_here Re.accepts Re.quantifier]. rewrite Hd.
  cbn [Re.star]. change (isdigit 0x2E) with false. cbv iota.
  change (Re.chr 0x2E 0x2E) with true. cbv iota.
  apply star_drop_while.
Qed.

Lemma split_reviews_numbered text :
  contains [LF; LF] text = false ->
  is_Some (Re.search Re.numbered_pattern text) ->
  _split_reviews text = stripped_nonempty (Re.split Re.numbered_pattern text).
Proof.
  intros Hc Hs. rewrite split_reviews_cases, Hc. by rewrite bool_decide_true.
Qed.

(** The search succeeds exactly when the pattern occurs. *)
Lemma search_occurs pat s : is_Some (Re.search pat s) <-> Re.occurs pat s.
Proof.
  split.
  - intros [[pre rest] (m & -> & Hm)%search_Some]. by exists pre, (m ++ rest), rest.
  - intros (pre & s' & r & -> & Hm). by eapply search_complete.
Qed.

(** Nothing matches to the left of the match that the search returns. *)
Lemma search_leftmost pat s pre rest i :
  Re.search pat s = Some (pre, rest) -> i < length pre ->
  Re.match_here pat (drop i s) = None.
Proof.
  revert pre i. induction s as [|c s IH]; intros pre i.
  - rewrite search_nil. destruct (Re.match_here pat []); [|done].
    intros [= <- _]. simpl. lia.
  - rewrite search_cons. destruct (Re.match_here pat (c :: s)) eqn:E.
    + intros [= <- _]. simpl. lia.
    + destruct (Re.search pat s) as [[pre' rest']|] eqn:Es; [|done].
      intros [= <- <-] Hi. destruct i as [|i]; [done|].
      simpl in Hi. apply (IH pre'); [done|lia].
Qed.

Lemma star_split p k s r :
  Re.star p k s = Some r ->
  exists ds s', s = ds ++ s' /\ forallb p ds = true /\ k s' = Some r.
Proof.
  induction s as [|c s IH]; cbn [Re.star].
  - intros H. by exists [], [].
  - destruct (p c) eqn:Hc; [|intros H; by exists [], (c :: s)].
    destruct (Re.star p k s) as [r'|] eqn:E; [|intros H; by exists [], (c :: s)].
    intros [= ->]. destruct (IH eq_refl) as (ds & s' & -> & Hds & Hk).
    exists (c :: ds), s'. simpl. by rewrite Hc.
Qed.

Lemma star_fallback p k s : is_Some (k s) -> is_Some (Re.star p k s).
Proof.
  intros Hk. destruct s as [|c s]; cbn [Re.star]; [done|].
  destruct (p c); [|done]. by destruct (Re.star p k s).
Qed.

Lemma star_is_Some p k ds s :
  forallb p ds = true -> is_Some (k s) -> is_Some (Re.star p k (ds ++ s)).
Proof.
  intros Hds Hk. induction ds as [|d ds IH]; [by apply star_fallback|].
  simpl in Hds. apply andb_true_iff in Hds as [Hd Hds].
  cbn [app Re.star]. rewrite Hd. destruct (IH Hds) as [r ->]. by eexists.
Qed.

(** The numbered marker matches at the start of a text exactly when the
    text opens with one or more digits followed by a period. *)
Lemma match_numbered_iff s :
  is_Some (Re.match_here Re.numbered_pattern s) <->
  exists d ds rest,
    s = d :: ds ++ 0x2E%N :: rest /\ isdigit d = true /\ forallb isdigit ds = true.
Proof.
  unfold Re.numbered_pattern. cbn [Re.match_here Re.accepts Re.quantifier].
  split.
  - destruct s as [|d s]; [by intros [? ?]|].
    destruct (isdigit d) eqn:Hd; [|by intros [? ?]].
    intros [r (ds & s' & -> & Hds & Hk)%star_split].
    destruct s' as [|c s']; [done|].
    destruct (Re.chr 0x2E c) eqn:Hc; [|done].
    apply N.eqb_eq in Hc as <-. by exists d, ds, s'.
  - intros (d & ds & rest & -> & Hd & Hds). rewrite Hd.
    apply star_is_Some; [done|].
    change (Re.chr 0x2E 0x2E) with true. cbv iota.
    rewrite star_drop_while. by eexists.
Qed.

(** A match is kept when the text is extended. *)
Lemma match_numbered_extend s x :
  is_Some (Re.match_here Re.numbered_pattern s) ->
  is_Some (Re.match_here Re.numbered_pattern (s ++ x)).
Proof.
  rewrite !match_numbered_iff. intros (d & ds & rest & -> & Hd & Hds).
  exists d, ds, (rest ++ x). split; [|done].
  by rewrite <- !app_comm_cons, <- app_assoc, <- app_comm_cons.
Qed.

(** The marker occurs exactly when some digit is followed by a period. *)
Lemma occurs_numbered text :
  Re.occurs Re.numbered_pattern text <->
  exists pre d post, isdigit d = true /\ text = pre ++ d :: 0x2E%N :: post.
Proof.
  split.
  - intros (pre & s & r & -> & Hm).
    assert (is_Some (Re.match_here Re.numbered_pattern s)) as Hs by (by eexists).
    apply match_numbered_iff in Hs as (d & ds & rest & -> & Hd & Hds).
    destruct ds as [|d' ds _] using rev_ind.
    + by exists pre, d, rest.
    + rewrite forallb_app in Hds. apply andb_true_iff in Hds as [_ Hd'].
      simpl in Hd'. rewrite andb_true_r in Hd'.
      exists (pre ++ d :: ds), d', rest. split; [done|].
      by rewrite <- !app_assoc.
  - intros (pre & d & post & Hd & ->).
    exists pre, (d :: 0x2E%N :: post), (lstrip post).
    split; [done|]. by apply match_numbered_digit_period.
Qed.

(** The text before a marker holds no marker. *)
Lemma search_numbered_piece s pre rest :
  Re.search Re.numbered_pattern s = Some (pre, rest) ->
  Re.search Re.numbered_pattern pre = None.
Proof.
  intros Hs. destruct (Re.search Re.numbered_pattern pre) as [[p1 r1]|] eqn:Hp; [|done].
  exfalso. apply search_Some in Hp as (m1 & Hpre & Hm1).
  pose proof Hs as (m & Hs' & _)%search_Some.
  assert (is_Some (Re.match_here Re.numbered_pattern (m1 ++ r1))) as H1 by (by eexists).
  pose proof H1 as (d & ds & rest' & Hd & _)%match_numbered_iff.
  apply (match_numbered_extend _ (m ++ rest)) in H1.
  assert (drop (length p1) s = (m1 ++ r1) ++ m ++ rest) as Hdrop.
  { rewrite Hs', Hpre, <- !app_assoc. by rewrite drop_app_length. }
  rewrite <- Hdrop, (search_leftmost _ _ _ _ _ Hs) in H1; [by destruct H1|].
  rewrite Hpre, length_app, Hd. simpl. lia.
Qed.

(** The numbered split cuts at every marker: no piece holds one. *)
Lemma split_numbered_pieces n s :
  length s < n ->
  Forall (fun piece => Re.search Re.numbered_pattern piece = None)
         (split_by (Re.search Re.numbered_pattern) n s).
Proof.
  revert s. induction n as [|n IH]; intros s Hn; [lia|]. simpl.
  destruct (Re.search Re.numbered_pattern s) as [[pre rest]|] eqn:E.
  - constructor; [by eapply search_numbered_piece|].
    apply IH. apply search_consumes in E; [lia|done].
  - by constructor.
Qed.

(** C10: the numbered marker is any digit followed by a period, wherever
    it stands in the text; the numbered split cuts at every one of them,
    so that no piece holds a marker; and on a text without a blank-line
    separator in which a marker occurs the numbered strategy is taken.  A
    sentence with a number before a full stop, or with a decimal number,
    is therefore cut inside. *)
Theorem split_reviews_numbered_anywhere :
  (forall text,
     Re.occurs Re.numbered_pattern text <->
     exists pre d post, isdigit d = true /\ text = pre ++ d :: 0x2E%N :: post) /\
  (forall text,
     Forall (fun piece => ~ Re.occurs Re.numbered_pattern piece)
            (Re.split Re.numbered_pattern text)) /\
  (forall text,
     contains [LF; LF] text = false ->
     Re.occurs Re.numbered_pattern text ->
     1 < length (Re.split Re.numbered_pattern text) /\
     _split_reviews text = stripped_nonempty (Re.split Re.numbered_pattern text)) /\
  _split_reviews (py "I rated it 4. Great stay overall") =
    [py "I rated it"; py "Great stay overall"] /\
  _split_reviews (py "We paid 4.5 euros for a coffee") =
    [py "We paid"; py "5 euros for a coffee"].
Proof.
  split; [exact occurs_numbered|].
  split; [|split; [|by vm_compute]].
  - intros text. eapply Forall_impl; [apply split_numbered_pieces; lia|].
    intros piece Hp Ho%search_occurs. rewrite Hp in Ho. by destruct Ho.
  - intros text Hc Ho%search_occurs.
    split; [|by apply split_reviews_numbered].
    apply Nat.ltb_lt. rewrite re_split_length. by apply bool_decide_eq_true.
Qed.

Lemma split_reviews_numbered_anywhere_witness :
  _split_reviews (py "Room 12. Quiet floor") =
    stripped_nonempty (Re.split Re.numbered_pattern (py "Room 12. Quiet floor")).
Proof.
  destruct split_reviews_numbered_anywhere as (Hocc & _ & Hsplit & _).
  apply Hsplit; [by vm_compute|].
  apply Hocc. exists (py "Room 1"), 0x32%N, (py " Quiet floor"). by vm_compute.
Defined.

(** * Further properties of the analyzer *)

(** ** Where the segments come from *)

Lemma in_order_app_l segments x text :
  in_order segments text -> in_order segments (x ++ text).
Proof.
  destruct segments as [|s rest]; [done|].
  intros (l & r & -> & Hr). exists (x ++ l), r. by rewrite <- app_assoc.
Qed.

Lemma strip_infix s : exists l r, s = l ++ strip s ++ r.
Proof.
  destruct (drop_while_suffix isspace s) as (l & Hl & _).
  destruct (rstrip_prefix (lstrip s)) as [r Hr].
  exists l, r. unfold strip. by rewrite <- Hr.
Qed.

Lemma search_cuts pat : cuts (Re.search pat) (fun _ => True).
Proof. intros s pre rest (m & -> & _)%search_Some. by exists m. Qed.

Lemma find_cuts sep : cuts (find sep) (fun _ => True).
Proof. intros s pre rest ->%find_Some. by exists sep. Qed.

Lemma split_by_in_order f n s :
  cuts f (fun _ => True) -> in_order (split_by f n s) s.
Proof.
  intros Hf. revert s. induction n as [|n IH]; intros s; simpl.
  - exists [], []. by rewrite app_nil_r.
  - destruct (f s) as [[pre rest]|] eqn:E.
    + destruct (Hf _ _ _ E) as (m & -> & _).
      exists [], (m ++ rest). split; [done|]. apply in_order_app_l, IH.
    + exists [], []. by rewrite app_nil_r.
Qed.

Lemma stripped_nonempty_in_order pieces text :
  in_order pieces text -> in_order (stripped_nonempty pieces) text.
Proof.
  unfold stripped_nonempty. revert text.
  induction pieces as [|p pieces IH]; intros text; [done|].
  intros (a & b & -> & Hb). rewrite bind_cons.
  destruct (strip_infix p) as (u & v & Hp).
  destruct (strip p) as [|c q] eqn:E.
  - cbn [app]. do 2 apply in_order_app_l. by apply IH.
  - cbn [app]. exists (a ++ u), (v ++ b). split.
    + rewrite Hp at 1. by rewrite <- !app_assoc.
    + apply in_order_app_l. by apply IH.
Qed.

(** X1: the segments are pieces of the raw text: they lie in it in the
    order returned, one after the other and without overlap; the
    segmenter drops text (separators, markers, surrounding whitespace) but
    never invents, reorders or repeats any. *)
Theorem split_reviews_in_order text : in_order (_split_reviews text) text.
Proof.
  unfold _split_reviews.
  repeat match goal with
         | |- context [if ?b then _ else _] => destruct b
         end;
    try (apply stripped_nonempty_in_order, split_by_in_order;
         first [apply find_cuts | apply search_cuts]).
  destruct (strip_infix text) as (l & r & H).
  destruct (strip text) as [|c t]; [done|]. by exists l, r.
Qed.

(** ** What the extractor returns *)

Lemma accept_wellformed line :
  Forall (fun i => i <> [] /\ strip i = i) (accept line).
Proof.
  unfold accept. destruct (strip line) as [|c rest] eqn:E; [constructor|].
  destruct (is_bullet c).
  - destruct (strip (drop_while _ _)) as [|c' i] eqn:Ei; [constructor|].
    constructor; [|constructor]. split; [done|]. rewrite <- Ei. apply strip_idemp.
  - destruct (3 <? _); [|constructor].
    constructor; [|constructor]. split; [done|]. rewrite <- E. apply strip_idemp.
Qed.

Lemma extract_wellformed answer :
  Forall (fun i => i <> [] /\ strip i = i) (extract answer).
Proof.
  destruct answer as [response|msg]; simpl.
  - apply Forall_take, Forall_bind, Forall_forall. intros line _.
    apply accept_wellformed.
  - constructor; [|constructor]. split; [done|by vm_compute].
Qed.

(** X2: whatever the model answers, the extractor returns a list (it never
    raises) in which every insight is non-empty and carries no leading or
    trailing whitespace; blank lines and lines of markers only leave no
    empty entry behind. *)
Theorem overall_insights_wellformed model text w :
  exists insights w',
    _get_overall_insights model text w = (Ok insights, w') /\
    Forall (fun i => i <> [] /\ strip i = i) insights.
Proof.
  eexists _, _. split; [apply overall_insights_run|]. apply extract_wellformed.
Qed.

(** ** Which word wins *)

(** X3: a response that mentions "positive" anywhere (after trimming and
    lower-casing) is labelled positive, also when it mentions "negative"
    as well or denies it ("not positive"): the test for "positive" comes
    first in the chain. *)
Theorem classify_positive_first model review w response :
  model (prompts w) (sentiment_prompt review) = Response response ->
  contains (py "positive") (lower (strip response)) = true ->
  (_analyze_single_review_sentiment model review w).1 = Ok (py "positive").
Proof.
  intros Hm Hc. rewrite analyze_single_run, Hm. cbn [fst classify_spec].
  set (s := lower (strip response)) in *. unfold Str.eqb.
  destruct (decide (s = py "positive")) as [->|H1]; [done|].
  rewrite (bool_decide_false _ H1).
  destruct (decide (s = py "negative")) as [E|H2].
  { rewrite E in Hc. by vm_compute in Hc. }
  rewrite (bool_decide_false _ H2).
  destruct (decide (s = py "neutral")) as [E|H3].
  { rewrite E in Hc. by vm_compute in Hc. }
  by rewrite (bool_decide_false _ H3), Hc.
Qed.

Lemma classify_positive_first_witness :
  (_analyze_single_review_sentiment
     (always (Response (py " Not positive, rather NEGATIVE. ")))
     (py "The pool was closed") w0).1 = Ok (py "positive").
Proof.
  apply (classify_positive_first _ _ _ (py " Not positive, rather NEGATIVE. "));
    by vm_compute.
Defined.

(** ** The aggregator at its edges *)




(** A count of zero makes a percentage of exactly 0.0. *)
Lemma pct_zero total : (0 < total)%Z -> pct 0 total = S754_zero false.
Proof. destruct total; [lia| |lia]. by intros _. Qed.

Lemma threshold_insight_no_positive negative total :
  (0 < total)%Z ->
  threshold_insight 0 negative total =
  if gt_int (pct negative total) 50 then concerning_negative else mixed_reviews.
Proof. intros Ht. unfold threshold_insight. by rewrite (pct_zero _ Ht). Qed.

Lemma Counter_absent (l : list str) k : k ∉ l -> get (Counter l) k 0 = 0%Z.
Proof.
  intros Hk. rewrite Counter_get.
  assert (filter (eq k) l = []) as ->; [|done].
  induction l as [|x l IH]; [done|].
  apply not_elem_of_cons in Hk as [Hx Hl].
  rewrite filter_cons, decide_False by done. by apply IH.
Qed.

(** X5: when no label is positive, no message speaks of positive reviews:
    the rule insights are the single message "Concerning number of
    negative reviews" or "Mixed reviews"; when no label is negative
    either (all are neutral) it is "Mixed reviews". *)
Theorem summary_insights_no_positive (sentiments : list str) w :
  sentiments <> [] ->
  py "positive" ∉ sentiments ->
  let c := Counter sentiments in
  let total := Z.of_nat (length sentiments) in
  exists out,
    _generate_summary_insights (distribution c) total w = (Ok [out], w) /\
    (out = concerning_negative \/ out = mixed_reviews) /\
    (py "negative" ∉ sentiments -> out = mixed_reviews).
Proof.
  intros Hne Hpos c total.
  assert (0 < total)%Z as Ht by (unfold total; destruct sentiments; [done|simpl; lia]).
  pose proof (summary_insights_distribution sentiments w) as Hrun.
  cbv zeta in Hrun. unfold c, total in *. rewrite Hrun. unfold summary_of.
  rewrite (proj2 (Z.eqb_neq _ _)) by lia. rewrite (Counter_absent _ _ Hpos). unfold rule_insights.
  rewrite threshold_insight_no_positive by done.
  assert ((get (Counter sentiments) (py "negative") 0 * 2 <? 0)%Z = false) as ->.
  { apply Z.ltb_ge. rewrite Counter_get. lia. }
  eexists. split; [done|]. split.
  - destruct (gt_int _ _); [by left|by right].
  - intros Hneg. rewrite (Counter_absent _ _ Hneg).
    by rewrite (pct_zero _ Ht).
Qed.

Lemma summary_insights_no_positive_witness :
  _generate_summary_insights
    (distribution (Counter [py "neutral"; py "neutral"])) 2 w0
  = (Ok [mixed_reviews], w0).
Proof.
  destruct (summary_insights_no_positive [py "neutral"; py "neutral"] w0)
    as (out & Hrun & _ & Hmixed).
  - done.
  - apply (bool_decide_unpack _). by vm_compute.
  - rewrite <- Hmixed; [exact Hrun|]. apply (bool_decide_unpack _). by vm_compute.
Defined.

(** ** When the model is down *)

Lemma sentiments_run_unavailable model reviews sentiments w :
  unavailable model ->
  let k := length (List.filter eligible reviews) in
  exists w',
    for_each reviews (analyze_one model) sentiments w =
      (Ok (sentiments ++ replicate k (py "neutral")), w') /\
    length (stdout w') = length (stdout w) + k.
Proof.
  intros Hun. revert sentiments w.
  induction reviews as [|r reviews IH]; intros sentiments w.
  - exists w. cbn. rewrite app_nil_r. split; [done|lia].
  - cbn [for_each List.filter]. rewrite run_bind, analyze_one_run.
    destruct (eligible r).
    + cbv zeta. destruct (Hun (prompts w) (sentiment_prompt r)) as [msg ->].
      cbn [classify_spec printed]. set (w1 := World _ _).
      destruct (IH (sentiments ++ [py "neutral"]) w1) as (w' & Hrun & Hout).
      exists w'. rewrite Hrun, <- app_assoc. split; [done|].
      rewrite Hout. unfold w1. cbn [stdout length]. rewrite length_app. simpl. lia.
    + apply IH.
Qed.

Lemma Counter_replicate k (x y : str) :
  get (Counter (replicate k x)) y 0 = if decide (x = y) then Z.of_nat k else 0%Z.
Proof.
  destruct (decide (x = y)) as [->|Hne].
  - rewrite Counter_get. f_equal. induction k as [|k IH]; [done|].
    cbn [replicate]. rewrite filter_cons, decide_True by done. simpl. by rewrite IH.
  - apply Counter_absent. intros [? _]%elem_of_replicate. congruence.
Qed.

(** X6: when every call of the model fails, [analyze_reviews] still
    returns a result for any text that has a segment: every eligible
    segment is counted as neutral, the insights are the message "Unable to
    generate insights from reviews" followed (if any segment was eligible)
    by "Mixed reviews", and one line is printed per failed call. *)
Theorem analyze_reviews_model_unavailable model text w :
  unavailable model ->
  _split_reviews text <> [] ->
  let n := length (List.filter eligible (_split_reviews text)) in
  exists result w',
    analyze_reviews model text w = (Ok result, w') /\
    lookup_key (py "total_reviews") result = Some (VInt (Z.of_nat n)) /\
    lookup_key (py "sentiment_distribution") result =
      Some (VDict [ (py "Positive", VInt 0); (py "Neutral", VInt (Z.of_nat n));
                    (py "Negative", VInt 0) ]) /\
    lookup_key (py "insights") result =
      Some (VList (py "Unable to generate insights from reviews" ::
                   match n with O => [] | S _ => [mixed_reviews] end)) /\
    length (stdout w') = length (stdout w) + n + 1.
Proof.
  intros Hun Hne n.
  destruct (analyze_reviews_run model text w Hne) as (sentiments & w1 & Hloop & Hrun).
  destruct (sentiments_run_unavailable model (_split_reviews text) [] w Hun)
    as (w1' & Hloop' & Hout).
  rewrite Hloop in Hloop'. injection Hloop' as Hs Hw. subst sentiments w1'.
  fold n in Hout, Hrun.
  destruct (Hun (prompts w1) (insights_prompt text)) as [msg Hmsg].
  rewrite Hmsg in Hrun. cbn [extract printed] in Hrun.
  eexists _, _. split; [exact Hrun|].
  unfold result_of, distribution. cbn [lookup_key].
  rewrite !Counter_replicate, length_replicate.
  repeat split.
  - cbn. unfold summary_of, rule_insights.
    rewrite !Counter_replicate. cbn.
    destruct n as [|n']; [done|].
    rewrite (proj2 (Z.eqb_neq _ _)) by lia.
    unfold threshold_insight. rewrite pct_zero by lia. done.
  - cbn [stdout]. rewrite length_app, Hout. simpl. lia.
Qed.

Lemma analyze_reviews_model_unavailable_witness :
  exists result w',
    analyze_reviews (always (Failure (py "quota exceeded")))
      (py "We loved the old town and the food") w0 = (Ok result, w') /\
    lookup_key (py "total_reviews") result = Some (VInt 1) /\
    length (stdout w') = 2.
Proof.
  destruct (analyze_reviews_model_unavailable (always (Failure (py "quota exceeded")))
              (py "We loved the old town and the food") w0)
    as (result & w' & Hrun & Ht & _ & _ & Hout).
  - intros history prompt. by eexists.
  - by vm_compute.
  - exists result, w'. split; [exact Hrun|]. split; [exact Ht|exact Hout].
Defined.

(** ** The two shapes of the result *)

Lemma extract_length answer : length (extract answer) <= 7.
Proof. destruct answer; simpl; [|lia]. rewrite length_take. lia. Qed.

Lemma summary_of_length c total :
  length (summary_of c total) <= 2 /\
  (summary_of c total = [] <-> total = 0%Z) /\
  Forall (fun m => m ∈ threshold_messages ++ [strong_positive]) (summary_of c total).
Proof.
  unfold summary_of. destruct (total =? 0)%Z eqn:Ht.
  - apply Z.eqb_eq in Ht. split; [simpl; lia|]. split; [done|constructor].
  - apply Z.eqb_neq in Ht. unfold rule_insights.
    pose proof (threshold_insight_message (get c (py "positive") 0)
                  (get c (py "negative") 0) total) as Hin.
    split; [|split].
    + destruct (_ <? _)%Z; simpl; lia.
    + split; [done|]. intros ->. done.
    + constructor; [apply elem_of_app; by left|].
      destruct (_ <? _)%Z; [|constructor].
      constructor; [|constructor]. apply elem_of_app. right. apply elem_of_cons. by left.
Qed.

(** X7: [analyze_reviews] never raises, and its result has one of two
    shapes: the single key "error" exactly when the text has no segment;
    otherwise the four keys total_reviews, sentiment_distribution,
    insights and sentiment_percentages, in this order, where the insights
    are at most 7 insights of the model followed by at most 2 rule
    messages, and there is no rule message exactly when no segment was
    long enough to be classified. *)
Theorem analyze_reviews_shape model text w :
  exists result w',
    analyze_reviews model text w = (Ok result, w') /\
    (_split_reviews text = [] /\ keys result = [py "error"] \/
     _split_reviews text <> [] /\
     keys result = [ py "total_reviews"; py "sentiment_distribution";
                     py "insights"; py "sentiment_percentages" ] /\
     exists overall rules,
       lookup_key (py "insights") result = Some (VList (overall ++ rules)) /\
       length overall <= 7 /\ length rules <= 2 /\
       Forall (fun m => m ∈ threshold_messages ++ [strong_positive]) rules /\
       (rules = [] <-> List.filter eligible (_split_reviews text) = [])).
Proof.
  destruct (_split_reviews text) as [|r rs] eqn:Hs.
  - eexists _, _. split; [by apply analyze_reviews_guard|]. by left.
  - assert (_split_reviews text <> []) as Hne by (by rewrite Hs).
    destruct (analyze_reviews_run model text w Hne) as (sentiments & w1 & Hloop & Hrun).
    destruct (sentiments_run model (_split_reviews text) [] w)
      as (new & w1' & Hloop' & _ & Hlen & _).
    rewrite Hloop in Hloop'. injection Hloop' as Hnew Hw. subst new w1'.
    rewrite Hs in Hlen.
    eexists _, _. split; [exact Hrun|]. right. split; [done|]. split; [done|].
    destruct (summary_of_length (Counter sentiments) (Z.of_nat (length sentiments)))
      as (Hle & Hnil & Hall).
    eexists _, _. split; [done|]. split; [|split; [exact Hle|split; [exact Hall|]]].
    + apply extract_length.
    + rewrite Hnil. split.
      * intros H. apply nil_length_inv. lia.
      * intros H. rewrite H in Hlen. simpl in Hlen. lia.
Qed.

(** ** Paragraphs come back as they were written *)

Lemma strip_fix_rstrip s : strip s = s -> rstrip s = s.
Proof.
  intros H. rewrite <- H at 1. unfold strip. rewrite rstrip_idemp. exact H.
Qed.

Lemma strip_fix_lstrip s : strip s = s -> lstrip s = s.
Proof.
  intros H. rewrite <- H at 1. unfold strip. rewrite lstrip_rstrip_lstrip. exact H.
Qed.

(** A trimmed text neither ends nor starts in whitespace. *)
Lemma trimmed_last x c : strip (x ++ [c]) = x ++ [c] -> isspace c = false.
Proof.
  intros H%strip_fix_rstrip. rewrite rstrip_snoc in H.
  destruct (isspace c); [|done]. exfalso.
  destruct (rstrip_prefix x) as [t Ht]. rewrite H in Ht.
  apply (f_equal length) in Ht. rewrite !length_app in Ht. simpl in Ht. lia.
Qed.

Lemma trimmed_head c x : strip (c :: x) = c :: x -> isspace c = false.
Proof.
  intros H%strip_fix_lstrip. unfold lstrip in H. cbn [drop_while] in H.
  destruct (isspace c); [|done]. exfalso.
  destruct (drop_while_suffix isspace x) as (l & Hl & _). rewrite H in Hl.
  apply (f_equal length) in Hl. rewrite length_app in Hl. simpl in Hl. lia.
Qed.

Lemma contains_app_r sub s t : contains sub s = true -> contains sub (s ++ t) = true.
Proof.
  rewrite !contains_spec. intros (l & r & ->). exists l, (r ++ t).
  by rewrite <- !app_assoc.
Qed.

(** A trimmed paragraph without a blank line has none either when a line
    break is put after it. *)
Lemma paragraph_then_break p :
  p <> [] -> strip p = p -> contains [LF; LF] p = false ->
  contains [LF; LF] (p ++ [LF]) = false.
Proof.
  intros Hne Hp Hc. destruct (contains [LF; LF] (p ++ [LF])) eqn:E; [|done].
  exfalso. apply contains_spec in E as (l & r & E).
  destruct r as [|c r _] using rev_ind.
  - change ([LF; LF] ++ []) with ([LF] ++ [LF]) in E. rewrite app_assoc in E.
    apply app_inj_tail in E as [-> _]. by apply trimmed_last in Hp.
  - rewrite !app_assoc in E. apply app_inj_tail in E as [-> _].
    assert (contains [LF; LF] ((l ++ [LF; LF]) ++ r) = true) as Hc'.
    { apply contains_spec. exists l, r. by rewrite <- app_assoc. }
    congruence.
Qed.

Lemma startswith_LF_app x rest :
  startswith [LF] (x ++ LF :: rest) = startswith [LF] (x ++ [LF]).
Proof. by destruct x. Qed.

Lemma startswith_two a b c y :
  startswith [a; b] (c :: y) = (a =? c)%N && startswith [b] y.
Proof. done. Qed.

Lemma contains_cons sub c s :
  contains sub (c :: s) = startswith sub (c :: s) || contains sub s.
Proof. done. Qed.

Lemma find_cons sep c s :
  find sep (c :: s) =
  if startswith sep (c :: s) then Some ([], drop (length sep) (c :: s))
  else prod_map (cons c) id <$> find sep s.
Proof. done. Qed.

(** The first blank line of a text is the one after its first paragraph. *)
Lemma find_blank_line x rest :
  contains [LF; LF] (x ++ [LF]) = false ->
  find [LF; LF] (x ++ [LF; LF] ++ rest) = Some (x, rest).
Proof.
  change ([LF; LF] ++ rest) with (LF :: LF :: rest).
  induction x as [|c x IH]; [done|].
  rewrite <- !app_comm_cons, contains_cons, startswith_two.
  intros [Hs Hc]%orb_false_iff.
  rewrite find_cons, startswith_two.
  rewrite (startswith_LF_app x (LF :: rest)), Hs. by rewrite (IH Hc).
Qed.

Lemma split_join_paragraphs ps :
  ps <> [] ->
  Forall (fun p => contains [LF; LF] (p ++ [LF]) = false) ps ->
  Str.split [LF; LF] (join [LF; LF] ps) = ps.
Proof.
  induction ps as [|p ps IH]; [done|]. intros _ [Hp Hps]%Forall_cons_1.
  destruct ps as [|q ps].
  - cbn [join]. unfold Str.split. cbn [split_by].
    destruct (find [LF; LF] p) as [[? ?]|] eqn:E; [|done].
    assert (contains [LF; LF] p = true) as Hc by (apply find_is_Some; by eexists).
    apply (contains_app_r _ _ [LF]) in Hc. congruence.
  - change (join [LF; LF] (p :: q :: ps))
      with (p ++ [LF; LF] ++ join [LF; LF] (q :: ps)).
    unfold Str.split. cbn [split_by]. rewrite (find_blank_line _ _ Hp).
    f_equal. transitivity (Str.split [LF; LF] (join [LF; LF] (q :: ps))).
    + symmetry. apply split_fuel; [done|]. rewrite !length_app. simpl. lia.
    + by apply IH.
Qed.

Lemma stripped_nonempty_trimmed_id ps :
  Forall (fun p => p <> [] /\ strip p = p) ps -> stripped_nonempty ps = ps.
Proof.
  unfold stripped_nonempty. induction 1 as [|p ps [Hne Hp] _ IH]; [done|].
  rewrite bind_cons, IH, Hp. by destruct p.
Qed.

(** X8: two or more paragraphs, each trimmed, non-empty and free of blank
    lines, that are joined by blank lines come back from the segmenter
    exactly as they were, one segment per paragraph, whatever numbers or
    Review markers they contain. *)
Theorem split_reviews_paragraphs (ps : list str) :
  1 < length ps ->
  Forall (fun p => p <> [] /\ strip p = p /\ contains [LF; LF] p = false) ps ->
  _split_reviews (join [LF; LF] ps) = ps.
Proof.
  intros Hlen Hps.
  assert (Str.split [LF; LF] (join [LF; LF] ps) = ps) as Hsplit.
  { apply split_join_paragraphs; [intros ->; simpl in Hlen; lia|].
    eapply Forall_impl; [exact Hps|]. intros p (? & ? & ?).
    by apply paragraph_then_break. }
  unfold _split_reviews. rewrite Hsplit.
  rewrite (proj2 (Nat.ltb_lt _ _) Hlen).
  apply stripped_nonempty_trimmed_id.
  eapply Forall_impl; [exact Hps|]. by intros p (? & ? & ?).
Qed.

Lemma split_reviews_paragraphs_witness :
  _split_reviews
    (join [LF; LF] [py "1. Great hotel!"; py "Review: noisy at night"; py "Food was okay."])
  = [py "1. Great hotel!"; py "Review: noisy at night"; py "Food was okay."].
Proof.
  apply split_reviews_paragraphs; [simpl; lia|].
  apply (bool_decide_unpack _). by vm_compute.
Defined.

(** ** Numbered lists come back item by item *)

(** The search returns the first place where the pattern matches. *)
Lemma search_at pat a s r :
  (forall j, j < length a -> Re.match_here pat (drop j (a ++ s)) = None) ->
  Re.match_here pat s = Some r ->
  Re.search pat (a ++ s) = Some (a, r).
Proof.
  intros Ha Hs. induction a as [|c a IH].
  - cbn [app]. destruct s; [rewrite search_nil|rewrite search_cons]; by rewrite Hs.
  - cbn [app]. rewrite search_cons.
    rewrite (Ha 0 ltac:(simpl; lia) : Re.match_here pat (c :: a ++ s) = None).
    rewrite IH; [done|]. intros j Hj. apply (Ha (S j)). simpl. lia.
Qed.

(** A greedy run over characters that are all accepted stops where the
    next character is not. *)
Lemma star_run p k ds s r :
  forallb p ds = true ->
  match s with c :: _ => p c = false | [] => True end ->
  k s = Some r ->
  Re.star p k (ds ++ s) = Some r.
Proof.
  intros Hds Hs Hk. induction ds as [|d ds IH].
  - destruct s as [|c s]; cbn [app Re.star]; [done|]. by rewrite Hs.
  - simpl in Hds. apply andb_true_iff in Hds as [Hd Hds].
    cbn [app Re.star]. by rewrite Hd, (IH Hds).
Qed.

(** A number, a period and a space before a text that does not start
    with whitespace are one marker. *)
Lemma match_numbered_marker num c y :
  num <> [] -> forallb isdigit num = true -> isspace c = false ->
  Re.match_here Re.numbered_pattern (num ++ py ". " ++ c :: y) = Some (c :: y).
Proof.
  intros Hne Hnum Hc. destruct num as [|d ds]; [done|].
  simpl in Hnum. apply andb_true_iff in Hnum as [Hd Hds].
  unfold Re.numbered_pattern. cbn [Re.match_here Re.accepts Re.quantifier app].
  rewrite Hd. change (py ". ") with [0x2E; 0x20]%N.
  apply star_run; [done|by vm_compute|].
  cbn [app]. change (Re.chr 0x2E 0x2E) with true. cbv iota.
  rewrite star_drop_while. cbn [drop_while].
  change (isspace 0x20) with true. cbv iota. cbn [drop_while]. by rewrite Hc.
Qed.

(** No marker starts inside a text that holds none and does not end in a
    digit, whatever follows it. *)
Lemma numbered_no_match_inside a s j :
  ~ Re.occurs Re.numbered_pattern a ->
  (forall a' z, a = a' ++ [z] -> isdigit z = false) ->
  j < length a ->
  Re.match_here Re.numbered_pattern (drop j (a ++ s)) = None.
Proof.
  intros Hocc Hlast Hj.
  destruct (Re.match_here Re.numbered_pattern (drop j (a ++ s))) as [r|] eqn:E; [|done].
  exfalso.
  assert (is_Some (Re.match_here Re.numbered_pattern (drop j (a ++ s)))) as Hm
    by (by eexists).
  apply match_numbered_iff in Hm as (d & ds & rest & Hd & Hdig & Hdigs).
  rewrite drop_app_le in Hd by lia.
  change (d :: ds ++ 0x2E%N :: rest) with ((d :: ds) ++ [0x2E%N] ++ rest) in Hd.
  rewrite app_assoc in Hd.
  assert (forall k, drop j a = ((d :: ds) ++ [0x2E%N]) ++ k -> False) as Hinside.
  { intros k Hk. apply Hocc.
    destruct (proj2 (match_numbered_iff (d :: ds ++ 0x2E%N :: k))) as [r' Hr'];
      [by exists d, ds, k|].
    exists (take j a), (drop j a), r'. split; [by rewrite take_drop|].
    by rewrite Hk, <- app_assoc. }
  apply app_eq_inv in Hd as [(k & Ha2 & _)|(k & Hk & _)]; [by eapply Hinside|].
  destruct k as [|z k _] using rev_ind.
  - rewrite app_nil_r in Hk. apply (Hinside []). by rewrite app_nil_r.
  - rewrite app_assoc in Hk. apply app_inj_tail in Hk as [Hk _].
    assert (drop j a <> []) as Hne.
    { intros E0. apply (f_equal length) in E0. rewrite length_drop in E0.
      simpl in E0. lia. }
    remember (drop j a) as a2 eqn:Ea2.
    destruct a2 as [|z' a2 _] using rev_ind; [done|].
    assert (isdigit z' = true) as Hz.
    { assert (forallb isdigit (d :: ds) = true) as Hall by (simpl; by rewrite Hdig).
      rewrite Hk, <- app_assoc, !forallb_app in Hall. simpl in Hall.
      destruct (isdigit z'); [done|]. by rewrite andb_false_r in Hall. }
    rewrite (Hlast (take j a ++ a2) z') in Hz; [done|].
    by rewrite <- app_assoc, Ea2, take_drop.
Qed.

(** A prefix without line breaks cannot hide a blank line. *)
Lemma contains_blank_line_skip m y :
  Forall (fun c => c <> LF) m ->
  contains [LF; LF] (m ++ y) = contains [LF; LF] y.
Proof.
  induction 1 as [|c m Hc _ IH]; [done|].
  rewrite <- app_comm_cons, contains_cons, startswith_two, IH.
  by rewrite (proj2 (N.eqb_neq LF c)).
Qed.

Lemma no_blank_line_app a b :
  contains [LF; LF] a = false ->
  contains [LF; LF] b = false ->
  (forall a', a = a' ++ [LF] -> startswith [LF] b = false) ->
  contains [LF; LF] (a ++ b) = false.
Proof.
  intros Ha Hb. induction a as [|c a IH]; intros Hend; [done|].
  rewrite contains_cons in Ha. apply orb_false_iff in Ha as [Hs Ha].
  rewrite <- app_comm_cons, contains_cons. apply orb_false_iff. split.
  - rewrite startswith_two in Hs |- *. destruct a as [|c' a].
    + destruct (N.eqb_spec LF c) as [<-|]; [|done].
      cbn [app andb]. by apply (Hend []).
    + exact Hs.
  - apply IH; [done|]. intros a' ->. by apply (Hend (c :: a')).
Qed.

Lemma digits_no_LF num : forallb isdigit num = true -> Forall (fun c => c <> LF) num.
Proof.
  rewrite forallb_forall, Forall_forall. intros H c Hc ->.
  apply list_elem_of_In, H in Hc. by vm_compute in Hc.
Qed.

Lemma occurs_then_break x :
  ~ Re.occurs Re.numbered_pattern x -> ~ Re.occurs Re.numbered_pattern (x ++ [LF]).
Proof.
  intros Hx (pre & d & post & Hd & E)%occurs_numbered. apply Hx, occurs_numbered.
  destruct post as [|c post _] using rev_ind.
  - change (pre ++ [d; 0x2E%N]) with (pre ++ [d] ++ [0x2E%N]) in E.
    rewrite !app_assoc in E. by apply app_inj_tail in E as [_ [=]].
  - exists pre, d, post. split; [done|].
    change (pre ++ d :: 0x2E%N :: post ++ [c])
      with (pre ++ (d :: 0x2E%N :: post) ++ [c]) in E.
    rewrite app_assoc in E. by apply app_inj_tail in E as [-> _].
Qed.

Lemma strip_then_break x : x <> [] -> strip x = x -> strip (x ++ [LF]) = x.
Proof.
  intros Hne Hx. destruct x as [|c x]; [done|].
  pose proof (trimmed_head _ _ Hx) as Hc.
  unfold strip, lstrip. cbn [app drop_while]. rewrite Hc.
  change (c :: x ++ [LF]) with ((c :: x) ++ [LF]). rewrite rstrip_snoc.
  change (isspace LF) with true. cbv iota. by apply strip_fix_rstrip.
Qed.

Lemma numbered_list_cons num x rest :
  numbered_list ((num, x) :: rest) =
  num ++ py ". " ++ x ++ [LF] ++ numbered_list rest.
Proof. unfold numbered_list. rewrite bind_cons. cbn [fst snd]. by rewrite <- !app_assoc. Qed.

Lemma numbered_list_length num x rest :
  length (numbered_list ((num, x) :: rest)) =
  length num + 2 + length x + 1 + length (numbered_list rest).
Proof.
  rewrite numbered_list_cons. change (py ". ") with [0x2E; 0x20]%N.
  rewrite !length_app. cbn [length]. lia.
Qed.

Lemma numbered_list_starts items :
  Forall (fun item => is_number item.1) items ->
  startswith [LF] (numbered_list items) = false.
Proof.
  destruct 1 as [|[num x] rest [Hne Hnum] _]; [done|].
  rewrite numbered_list_cons. destruct num as [|d ds]; [done|].
  simpl in Hnum. apply andb_true_iff in Hnum as [Hd _].
  cbn [app]. rewrite startswith_single.
  destruct (N.eqb_spec d LF) as [->|]; [by vm_compute in Hd|done].
Qed.

Lemma numbered_list_no_blank_line items :
  Forall (fun item => is_number item.1 /\ plain_item item.2) items ->
  contains [LF; LF] (numbered_list items) = false.
Proof.
  induction 1 as [|[num x] rest [[Hne Hnum] (Hx & Hs & Hc & _)] Hrest IH]; [done|].
  rewrite numbered_list_cons, !app_assoc, <- (app_assoc _ x), <- (app_assoc (num ++ _)).
  rewrite contains_blank_line_skip.
  - apply no_blank_line_app; [by apply paragraph_then_break|done|].
    intros _ _. apply numbered_list_starts.
    eapply Forall_impl; [exact Hrest|]. by intros ? [? _].
  - apply Forall_app. split; [by apply digits_no_LF|].
    apply (bool_decide_unpack _). by vm_compute.
Qed.

(** After an item, the split goes on with the items that follow. *)
Lemma split_numbered_tail rest x n :
  plain_item x ->
  Forall (fun item => is_number item.1 /\ plain_item item.2) rest ->
  length (x ++ [LF] ++ numbered_list rest) < n ->
  split_by (Re.search Re.numbered_pattern) n (x ++ [LF] ++ numbered_list rest) =
  (x ++ [LF]) :: ((fun item => item.2 ++ [LF]) <$> rest).
Proof.
  intros Hx Hrest. revert x n Hx.
  induction Hrest as [|[num' x'] rest [[Hne Hnum] Hx'] Hrest IH]; intros x n Hx Hn.
  - destruct n as [|n]; [lia|]. cbn [split_by].
    destruct (Re.search Re.numbered_pattern _) as [[pre r]|] eqn:E.
    + exfalso. destruct Hx as (_ & _ & _ & Hocc).
      apply (occurs_then_break x Hocc), search_occurs.
      change (numbered_list []) with (@nil N) in E. rewrite app_nil_r in E.
      by eexists.
    + change (numbered_list []) with (@nil N). by rewrite app_nil_r.
  - destruct n as [|n]; [lia|]. cbn [split_by]. cbn [fst snd] in *.
    rewrite !length_app, numbered_list_length in Hn. cbn [length] in Hn.
    rewrite numbered_list_cons, app_assoc.
    destruct Hx' as (Hne' & Hs' & Hc' & Hocc').
    destruct x' as [|c y] eqn:Ex'; [done|]. rewrite <- Ex' in *.
    assert (isspace c = false) as Hcs by (rewrite Ex' in Hs'; by apply trimmed_head in Hs').
    rewrite (search_at _ (x ++ [LF]) _ (x' ++ [LF] ++ numbered_list rest)).
    + f_equal. apply IH; [done|].
      rewrite !length_app. cbn [length]. lia.
    + intros j Hj. apply numbered_no_match_inside; [|  |done].
      * apply occurs_then_break. by destruct Hx as (_ & _ & _ & ?).
      * intros a' z [_ <-]%app_inj_tail. by vm_compute.
    + rewrite Ex'. cbn [app]. by apply match_numbered_marker.
Qed.

Lemma split_numbered_list items :
  items <> [] ->
  Forall (fun item => is_number item.1 /\ plain_item item.2) items ->
  Re.split Re.numbered_pattern (numbered_list items) =
  [] :: ((fun item => item.2 ++ [LF]) <$> items).
Proof.
  intros Hne Hitems. destruct Hitems as [|[num x] rest [[Hn Hnum] Hx] Hrest]; [done|].
  unfold Re.split. cbn [split_by].
  pose proof (numbered_list_length num x rest) as Hlen. rewrite numbered_list_cons.
  pose proof Hx as (Hne' & Hs' & _).
  destruct x as [|c y] eqn:Ex; [done|]. rewrite <- Ex in *.
  assert (isspace c = false) as Hcs by (rewrite Ex in Hs'; by apply trimmed_head in Hs').
  assert (Re.search Re.numbered_pattern (num ++ py ". " ++ x ++ [LF] ++ numbered_list rest)
          = Some ([], x ++ [LF] ++ numbered_list rest)) as ->.
  { apply (search_at _ []).
    - intros j Hj. simpl in Hj. lia.
    - rewrite Ex. cbn [app]. by apply match_numbered_marker. }
  f_equal. cbn [fmap list_fmap snd]. apply split_numbered_tail; [done|done|].
  rewrite numbered_list_cons in Hlen. rewrite Hlen, !length_app. cbn [length]. lia.
Qed.

Lemma stripped_nonempty_lines (xs : list str) :
  Forall (fun x => x <> [] /\ strip x = x) xs ->
  stripped_nonempty ((fun x => x ++ [LF]) <$> xs) = xs.
Proof.
  unfold stripped_nonempty. induction 1 as [|x xs [Hne Hx] _ IH]; [done|].
  rewrite fmap_cons, bind_cons, IH, (strip_then_break x Hne Hx). by destruct x.
Qed.

(** X9: a numbered list -- every item on its own line after a number, a
    period and a space -- comes back from the segmenter item by item,
    without the numbers, whatever the numbers are, provided each item is
    trimmed and non-empty, has no blank line and holds no digit directly
    followed by a period. *)
Theorem split_reviews_numbered_list (items : list (str * str)) :
  items <> [] ->
  Forall (fun item => is_number item.1 /\ plain_item item.2) items ->
  _split_reviews (numbered_list items) = items.*2.
Proof.
  intros Hne Hitems.
  rewrite split_reviews_cases, (numbered_list_no_blank_line _ Hitems).
  rewrite (split_numbered_list _ Hne Hitems).
  rewrite bool_decide_true.
  - unfold stripped_nonempty at 1. rewrite bind_cons.
    change (strip []) with (@nil N). cbn [app].
    rewrite <- (stripped_nonempty_lines (items.*2)).
    + by rewrite <- list_fmap_compose.
    + apply Forall_fmap. eapply Forall_impl; [exact Hitems|].
      by intros item (_ & ? & ? & _).
  - destruct (Re.search Re.numbered_pattern (numbered_list items)) eqn:E; [done|].
    pose proof (split_numbered_list _ Hne Hitems) as Hsplit.
    unfold Re.split in Hsplit. cbn [split_by] in Hsplit. rewrite E in Hsplit.
    injection Hsplit as _ Hnil. by destruct items.
Qed.

Lemma split_reviews_numbered_list_witness :
  _split_reviews
    (numbered_list [ (py "1", py "Great hotel, room 4 was quiet");
                     (py "2", py "Food was okay"); (py "10", py "Too noisy") ])
  = [py "Great hotel, room 4 was quiet"; py "Food was okay"; py "Too noisy"].
Proof.
  apply (split_reviews_numbered_list
           [ (py "1", py "Great hotel, room 4 was quiet");
             (py "2", py "Food was okay"); (py "10", py "Too noisy") ]); [done|].
  repeat (apply Forall_cons_2; [|]); [ | | |apply Forall_nil_2];
    (split; [split; [done|by vm_compute]|]);
    (split; [done|]); (split; [by vm_compute|]); (split; [by vm_compute|]);
    intros Hocc%search_occurs; vm_compute in Hocc; by destruct Hocc.
Defined.

(** ** Lists under the Review marker *)

(** What follows the word of the marker always matches: whitespace, a
    colon and whitespace again are all optional. *)
Lemma review_tail_is_Some s :
  is_Some (Re.match_here
             [Re.Atom isspace Re.Star; Re.Atom (Re.chr 0x3A) Re.Opt;
              Re.Atom isspace Re.Star] s).
Proof.
  cbn [Re.match_here Re.accepts Re.quantifier]. apply star_fallback.
  destruct s as [|c s]; [by rewrite star_drop_while|].
  destruct (Re.chr 0x3A c); [|by rewrite star_drop_while].
  by rewrite star_drop_while.
Qed.

(** The marker itself, before a text that does not start with whitespace. *)
Lemma match_review_marker c y :
  isspace c = false ->
  Re.match_here Re.review_pattern (py "Review: " ++ c :: y) = Some (c :: y).
Proof.
  intros Hc. change (py "Review: ") with [0x52; 0x65; 0x76; 0x69; 0x65; 0x77; 0x3A; 0x20]%N.
  unfold Re.review_pattern. cbn [Re.match_here Re.accepts Re.quantifier app].
  change (Re.chr_i 0x52 0x52) with true. change (Re.chr_i 0x65 0x65) with true.
  change (Re.chr_i 0x76 0x76) with true. change (Re.chr_i 0x69 0x69) with true.
  change (Re.chr_i 0x77 0x77) with true. cbv iota.
  cbn [Re.star]. change (isspace 0x3A) with false. cbv iota.
  change (Re.chr 0x3A 0x3A) with true. cbv iota.
  rewrite star_drop_while. cbn [drop_while].
  change (isspace 0x20) with true. cbv iota. cbn [drop_while]. by rewrite Hc.
Qed.

(** A match that starts before a line break lies before it: no letter of
    the marker's word is a line break. *)
Lemma review_match_inside u t :
  is_Some (Re.match_here Re.review_pattern (u ++ LF :: t)) ->
  is_Some (Re.match_here Re.review_pattern u).
Proof.
  unfold Re.review_pattern.
  destruct u as [|c1 [|c2 [|c3 [|c4 [|c5 [|c6 u]]]]]];
    cbn [Re.match_here Re.accepts Re.quantifier app];
    repeat match goal with
           | |- context [Re.chr_i ?k LF] => change (Re.chr_i k LF) with false
           | |- context [if Re.chr_i ?k ?c then _ else _] => destruct (Re.chr_i k c)
           end;
    try (by intros [? ?]).
  intros _. apply review_tail_is_Some.
Qed.

Lemma review_no_match_inside x s j :
  ~ Re.occurs Re.review_pattern x -> j <= length x ->
  Re.match_here Re.review_pattern (drop j (x ++ [LF] ++ s)) = None.
Proof.
  intros Hocc Hj.
  destruct (Re.match_here _ _) as [r|] eqn:E; [|done]. exfalso. apply Hocc.
  rewrite drop_app_le in E by lia.
  destruct (review_match_inside (drop j x) s) as [r' Hr']; [by eexists|].
  exists (take j x), (drop j x), r'. split; [by rewrite take_drop|done].
Qed.

Lemma review_occurs_then_break x :
  ~ Re.occurs Re.review_pattern x -> ~ Re.occurs Re.review_pattern (x ++ [LF]).
Proof.
  intros Hx (pre & s & r & E & Hm).
  destruct (decide (length pre <= length x)) as [Hle|Hgt].
  - pose proof (review_no_match_inside x [] (length pre) Hx Hle) as Hn.
    cbn [app] in Hn. rewrite E, drop_app_length in Hn. congruence.
  - apply (f_equal length) in E. rewrite !length_app in E. cbn [length] in E.
    destruct s as [|c s]; [done|]. cbn [length] in E. lia.
Qed.

(** Two texts without a marker of an enumeration put together hold none,
    unless the first ends in a digit. *)
Lemma no_numbered_app a b :
  ~ Re.occurs Re.numbered_pattern a -> ~ Re.occurs Re.numbered_pattern b ->
  (forall a' z, a = a' ++ [z] -> isdigit z = false) ->
  ~ Re.occurs Re.numbered_pattern (a ++ b).
Proof.
  intros Ha Hb Hlast (pre & d & post & Hd & E)%occurs_numbered.
  apply app_eq_inv in E as [(k & -> & E)|(k & -> & ->)].
  - destruct k as [|z1 [|z2 k]].
    + apply Hb, occurs_numbered. exists [], d, post. split; [done|]. cbn [app] in E |- *. congruence.
    + injection E as -> _. by rewrite (Hlast pre z1 eq_refl) in Hd.
    + injection E as -> <- _. apply Ha, occurs_numbered. by exists pre, z1, k.
  - apply Hb, occurs_numbered. by exists k, d, post.
Qed.

Lemma review_list_cons x rest :
  review_list (x :: rest) = py "Review: " ++ x ++ [LF] ++ review_list rest.
Proof. unfold review_list. rewrite bind_cons. by rewrite <- !app_assoc. Qed.

Lemma review_list_length x rest :
  length (review_list (x :: rest)) = 8 + length x + 1 + length (review_list rest).
Proof.
  rewrite review_list_cons.
  change (py "Review: ") with [0x52; 0x65; 0x76; 0x69; 0x65; 0x77; 0x3A; 0x20]%N.
  rewrite !length_app. cbn [length]. lia.
Qed.

Lemma review_list_starts items : startswith [LF] (review_list items) = false.
Proof.
  destruct items as [|x rest]; [done|]. rewrite review_list_cons.
  change (py "Review: ") with [0x52; 0x65; 0x76; 0x69; 0x65; 0x77; 0x3A; 0x20]%N.
  cbn [app]. by rewrite startswith_single.
Qed.

Lemma review_list_no_blank_line items :
  Forall review_item items -> contains [LF; LF] (review_list items) = false.
Proof.
  induction 1 as [|x rest [(Hne & Hs & Hc & _) _] _ IH]; [done|].
  rewrite review_list_cons, contains_blank_line_skip.
  - rewrite app_assoc. apply no_blank_line_app; [by apply paragraph_then_break|done|].
    intros _ _. apply review_list_starts.
  - apply (bool_decide_unpack _). by vm_compute.
Qed.

Lemma review_list_no_number items :
  Forall review_item items -> ~ Re.occurs Re.numbered_pattern (review_list items).
Proof.
  induction 1 as [|x rest [(_ & _ & _ & Hx) _] _ IH].
  - intros (pre & ? & ? & _ & E)%occurs_numbered. by destruct pre.
  - rewrite review_list_cons. apply no_numbered_app.
    + intros Hocc%search_occurs. vm_compute in Hocc. by destruct Hocc.
    + rewrite app_assoc. apply no_numbered_app; [by apply occurs_then_break|done|].
      intros a' z [_ <-]%app_inj_tail. by vm_compute.
    + change (py "Review: ") with ([0x52; 0x65; 0x76; 0x69; 0x65; 0x77; 0x3A] ++ [0x20])%N.
      intros a' z [_ <-]%app_inj_tail. by vm_compute.
Qed.

(** After an item, the split goes on with the items that follow. *)
Lemma split_review_tail rest x n :
  review_item x -> Forall review_item rest ->
  length (x ++ [LF] ++ review_list rest) < n ->
  split_by (Re.search Re.review_pattern) n (x ++ [LF] ++ review_list rest) =
  (x ++ [LF]) :: ((fun x => x ++ [LF]) <$> rest).
Proof.
  intros Hx Hrest. revert x n Hx.
  induction Hrest as [|x' rest Hx' Hrest IH]; intros x n Hx Hn.
  - destruct n as [|n]; [lia|]. cbn [split_by].
    change (review_list []) with (@nil N). rewrite app_nil_r.
    destruct (Re.search Re.review_pattern _) as [[pre r]|] eqn:E; [|done].
    exfalso. destruct Hx as [_ Hocc].
    apply (review_occurs_then_break x Hocc), search_occurs. by eexists.
  - destruct n as [|n]; [lia|]. cbn [split_by].
    rewrite !length_app, review_list_length in Hn. cbn [length] in Hn.
    rewrite review_list_cons, app_assoc.
    pose proof Hx' as [(Hne' & Hs' & _) _].
    destruct x' as [|c y] eqn:Ex'; [done|]. rewrite <- Ex' in *.
    assert (isspace c = false) as Hcs by (rewrite Ex' in Hs'; by apply trimmed_head in Hs').
    rewrite (search_at _ (x ++ [LF]) _ (x' ++ [LF] ++ review_list rest)).
    + f_equal. apply IH; [done|].
      rewrite !length_app. cbn [length]. lia.
    + intros j Hj. rewrite <- app_assoc. apply review_no_match_inside; [by destruct Hx|].
      rewrite length_app in Hj. cbn [length] in Hj. lia.
    + rewrite Ex'. cbn [app]. by apply match_review_marker.
Qed.

Lemma split_review_list items :
  items <> [] -> Forall review_item items ->
  Re.split Re.review_pattern (review_list items) =
  [] :: ((fun x => x ++ [LF]) <$> items).
Proof.
  intros Hne Hitems. destruct Hitems as [|x rest Hx Hrest]; [done|].
  unfold Re.split. cbn [split_by].
  pose proof (review_list_length x rest) as Hlen. rewrite review_list_cons.
  pose proof Hx as [(Hne' & Hs' & _) _].
  destruct x as [|c y] eqn:Ex; [done|]. rewrite <- Ex in *.
  assert (isspace c = false) as Hcs by (rewrite Ex in Hs'; by apply trimmed_head in Hs').
  assert (Re.search Re.review_pattern (py "Review: " ++ x ++ [LF] ++ review_list rest)
          = Some ([], x ++ [LF] ++ review_list rest)) as ->.
  { apply (search_at _ []).
    - intros j Hj. simpl in Hj. lia.
    - rewrite Ex. cbn [app]. by apply match_review_marker. }
  f_equal. rewrite fmap_cons. apply split_review_tail; [done|done|].
  rewrite review_list_cons in Hlen. rewrite Hlen, !length_app. cbn [length]. lia.
Qed.

(** X10: a list under the Review marker -- every item on its own line
    after the marker, a colon and a space -- comes back from the segmenter
    item by item, without the markers, provided each item is trimmed and
    non-empty, has no blank line, holds no digit directly followed by a
    period and does not hold the marker's word in any letter case. *)
Theorem split_reviews_review_list (items : list str) :
  items <> [] -> Forall review_item items ->
  _split_reviews (review_list items) = items.
Proof.
  intros Hne Hitems.
  rewrite split_reviews_cases, (review_list_no_blank_line _ Hitems).
  rewrite bool_decide_false
    by (intros Hocc%search_occurs; by apply (review_list_no_number items)).
  rewrite (split_review_list _ Hne Hitems).
  rewrite bool_decide_true.
  - unfold stripped_nonempty at 1. rewrite bind_cons.
    change (strip []) with (@nil N). cbn [app].
    apply stripped_nonempty_lines.
    eapply Forall_impl; [exact Hitems|]. by intros x [(? & ? & _) _].
  - destruct (Re.search Re.review_pattern (review_list items)) eqn:E; [done|].
    pose proof (split_review_list _ Hne Hitems) as Hsplit.
    unfold Re.split in Hsplit. cbn [split_by] in Hsplit. rewrite E in Hsplit.
    injection Hsplit as _ Hnil. by destruct items.
Qed.

Lemma split_reviews_review_list_witness :
  _split_reviews
    (review_list [py "Great hotel, room 4 was quiet"; py "Food was okay"])
  = [py "Great hotel, room 4 was quiet"; py "Food was okay"].
Proof.
  apply (split_reviews_review_list
           [py "Great hotel, room 4 was quiet"; py "Food was okay"]); [done|].
  repeat (apply Forall_cons_2; [|]); [ | |apply Forall_nil_2];
    (split; [split; [done|]; split; [by vm_compute|]; split; [by vm_compute|]|]);
    intros Hocc%search_occurs; vm_compute in Hocc; by destruct Hocc.
Defined.

(** ** Bulleted answers come back insight by insight *)

Lemma find_line x rest : LF ∉ x -> find [LF] (x ++ LF :: rest) = Some (x, rest).
Proof.
  induction x as [|c x IH]; intros Hx; cbn [app]; rewrite find_cons, startswith_single.
  - by rewrite N.eqb_refl.
  - apply not_elem_of_cons in Hx as [Hc Hx].
    rewrite (proj2 (N.eqb_neq c LF)) by congruence. by rewrite (IH Hx).
Qed.

Lemma find_no_line x : LF ∉ x -> find [LF] x = None.
Proof.
  induction x as [|c x IH]; intros Hx; [done|].
  apply not_elem_of_cons in Hx as [Hc Hx].
  rewrite find_cons, startswith_single.
  rewrite (proj2 (N.eqb_neq c LF)) by congruence. by rewrite (IH Hx).
Qed.

Lemma split_join_lines ls :
  ls <> [] -> Forall (fun l => LF ∉ l) ls -> Str.split [LF] (join [LF] ls) = ls.
Proof.
  induction ls as [|l ls IH]; [done|]. intros _ [Hl Hls]%Forall_cons_1.
  destruct ls as [|l' ls].
  - cbn [join]. unfold Str.split. cbn [split_by]. by rewrite find_no_line.
  - change (join [LF] (l :: l' :: ls)) with (l ++ LF :: join [LF] (l' :: ls)).
    unfold Str.split. cbn [split_by]. rewrite (find_line _ _ Hl).
    f_equal. transitivity (Str.split [LF] (join [LF] (l' :: ls))).
    + symmetry. apply split_fuel; [done|]. rewrite !length_app. simpl. lia.
    + by apply IH.
Qed.

Lemma is_bullet_not_space m : is_bullet m = true -> isspace m = false.
Proof.
  unfold is_bullet.
  intros [[->%N.eqb_eq| ->%N.eqb_eq]%orb_true_iff| ->%N.eqb_eq]%orb_true_iff;
    by vm_compute.
Qed.

Lemma rstrip_app_fix a i : i <> [] -> rstrip i = i -> rstrip (a ++ i) = a ++ i.
Proof.
  destruct i as [|z i _] using rev_ind; [done|]. intros _ H.
  rewrite rstrip_snoc in H. destruct (isspace z) eqn:Hz.
  - exfalso. destruct (rstrip_prefix i) as [t Ht]. rewrite H in Ht.
    apply (f_equal length) in Ht. rewrite !length_app in Ht. simpl in Ht. lia.
  - by rewrite app_assoc, rstrip_snoc, Hz.
Qed.

(** A line made of a marker, a space and a plain insight gives the insight. *)
Lemma accept_bulleted m i :
  is_bullet m = true -> plain_insight i -> accept (m :: 0x20%N :: i) = [i].
Proof.
  intros Hm (Hs & _ & Hc). destruct i as [|c i]; [done|].
  pose proof (trimmed_head _ _ Hs) as Hcs.
  assert (strip (m :: 0x20%N :: c :: i) = m :: 0x20%N :: c :: i) as Hline.
  { unfold strip, lstrip. cbn [drop_while]. rewrite (is_bullet_not_space _ Hm).
    apply (rstrip_app_fix [m; 0x20%N] (c :: i)); [done|by apply strip_fix_rstrip]. }
  unfold accept. rewrite Hline, Hm. cbn [drop_while]. rewrite Hm. cbn [orb].
  change (is_bullet 0x20 || (0x20 =? 0x20)%N) with true. cbv iota.
  rewrite Hc. cbn [orb].
  destruct (N.eqb_spec c 0x20) as [->|_]; [by vm_compute in Hcs|].
  by rewrite Hs.
Qed.

Lemma bulleted_lines items :
  Forall (fun item => is_bullet item.1 = true /\ plain_insight item.2) items ->
  Str.split [LF] (bulleted items) ≫= accept = items.*2.
Proof.
  intros Hitems. destruct (decide (items = [])) as [->|Hne]; [done|].
  unfold bulleted. rewrite split_join_lines.
  - induction Hitems as [|[m i] items [Hm Hi] _ IH]; [done|].
    rewrite !fmap_cons, bind_cons. cbn [fst snd] in *.
    rewrite (accept_bulleted _ _ Hm Hi). cbn [app]. f_equal.
    destruct (decide (items = [])) as [->|Hne']; [done|]. by apply IH.
  - by destruct items.
  - apply Forall_fmap. eapply Forall_impl; [exact Hitems|].
    intros [m i] [Hm (_ & Hi & _)]. cbn [fst snd] in *.
    intros [E|[[=]|H]%elem_of_cons]%elem_of_cons; [|done].
    cbn [fst] in E. rewrite <- E in Hm. by vm_compute in Hm.
Qed.

(** X11: when the model answers in the layout that the prompt asks for --
    one insight per line, each after a bullet marker and a space -- the
    extractor returns the insights as written, without the markers, in
    order, and the first seven of them if there are more; provided each
    insight is trimmed, stays on its line and does not itself start with a
    bullet marker. *)
Theorem overall_insights_bulleted model text w (items : list (N * str)) :
  Forall (fun item => is_bullet item.1 = true /\ plain_insight item.2) items ->
  model (prompts w) (insights_prompt text) = Response (bulleted items) ->
  (_get_overall_insights model text w).1 = Ok (take 7 items.*2).
Proof.
  intros Hitems Hmodel. pose proof (overall_insights_run model text w) as Hrun.
  cbv zeta in Hrun. rewrite Hrun, Hmodel. cbn [fst extract].
  by rewrite (bulleted_lines _ Hitems).
Qed.

Lemma overall_insights_bulleted_witness :
  (_get_overall_insights
     (always (Response (bulleted
        [ (0x2D%N, py "Go early"); (BULLET, py "Book ahead");
          (0x2A%N, py "Bring cash - cards are rarely accepted") ])))
     (py "Nice.") w0).1 =
  Ok [py "Go early"; py "Book ahead"; py "Bring cash - cards are rarely accepted"].
Proof.
  apply (overall_insights_bulleted
           (always (Response (bulleted
              [ (0x2D%N, py "Go early"); (BULLET, py "Book ahead");
                (0x2A%N, py "Bring cash - cards are rarely accepted") ])))
           (py "Nice.") w0
           [ (0x2D%N, py "Go early"); (BULLET, py "Book ahead");
             (0x2A%N, py "Bring cash - cards are rarely accepted") ]);
    [|done].
  repeat (apply Forall_cons_2; [|]); [ | | |apply Forall_nil_2];
    (split; [done|]); (split; [by vm_compute|]); (split; [|done]);
    apply (bool_decide_unpack _); by vm_compute.
Defined.
